(** * DirectoryListing: the directory enumeration and metadata engine

    A shallow embedding of [src/services/directoryService.ts] (the Path
    Guard [validatePath], the per-entry resolution [getFilePermissions] /
    [createFileInfo], the Listing Engine [listDirectory] and the Metadata
    Probe [getDirectoryMetadata]) and of the request validation of
    [src/controllers/directoryController.ts].

    Modelling conventions.
    - A JavaScript string is a Rocq [string]; the paths and names considered
      are ASCII, so [length] is the number of characters.
    - [page], [limit], sizes and timestamps (milliseconds since the epoch) are
      integers ([Z]); a quotient that JavaScript may evaluate to [Infinity]
      or [NaN] has type [Js.number].
    - A rejected promise / thrown exception is the [Err] branch of [result];
      [await] is the bind of that monad.  The file system is read-only and is
      an explicit value [FileSystem] (one snapshot of the disk); the wall
      clock read by [new Date()] is the explicit argument [now].
    - Node's [path] module, [String.prototype.localeCompare] and the date
      formatting are platform code: they are the fields of [Runtime].
      [Posix] gives the instance used by the examples. *)

From Stdlib Require Import ZArith NArith List String Ascii Bool Lia Permutation Sorted.
Import ListNotations.
Local Open Scope string_scope.
Local Open Scope Z_scope.

(* ------------------------------------------------------------------ *)
(** ** JavaScript built-ins used by the service *)

Module Js.

(** [s.startsWith(t)] *)
Definition startsWith (s t : string) : bool := String.prefix t s.

(** [s.includes(t)] *)
Fixpoint includes (s t : string) : bool :=
  if startsWith s t then true
  else match s with
       | EmptyString => false
       | String _ s' => includes s' t
       end.

Definition lowerChar (c : ascii) : ascii :=
  let n := nat_of_ascii c in
  if (Nat.leb 65 n && Nat.leb n 90)%bool then ascii_of_nat (n + 32) else c.

(** [s.toLowerCase()] on ASCII text *)
Fixpoint toLowerCase (s : string) : string :=
  match s with
  | EmptyString => EmptyString
  | String c s' => String (lowerChar c) (toLowerCase s')
  end.

Definition digitChar (d : N) : ascii :=
  if (d <? 10)%N then ascii_of_N (48 + d) else ascii_of_N (87 + d).

Fixpoint digitsOf (fuel : nat) (radix n : N) (acc : string) : string :=
  match fuel with
  | O => acc
  | S fuel' =>
      let acc' := String (digitChar (n mod radix)) acc in
      if (n / radix =? 0)%N then acc' else digitsOf fuel' radix (n / radix) acc'
  end.

(** The numeral of the integer [n] in the given radix, which is
    [n.toString(radix)] for [n] below [10^21] in magnitude and
    [2 <= radix <= 36]. *)
Definition toStringRadix (n radix : Z) : string :=
  let m := Z.to_N (Z.abs n) in
  let body := digitsOf (S (N.to_nat (N.size m))) (Z.to_N radix) m EmptyString in
  if n <? 0 then String "-" body else body.

(** The values [Math.ceil(a / b)] takes on integers [a], [b]. *)
Inductive number : Type :=
| Num (z : Z)
| PosInfinity
| NegInfinity
| NaN.

(** [Math.ceil(a / b)] *)
Definition ceilDiv (a b : Z) : number :=
  if b =? 0 then
    (if a =? 0 then NaN else if 0 <? a then PosInfinity else NegInfinity)
  else Num (- ((- a) / b)).

(** [p < n] for an integer [p] *)
Definition ltNumber (p : Z) (n : number) : bool :=
  match n with
  | Num z => p <? z
  | PosInfinity => true
  | NegInfinity => false
  | NaN => false
  end.

(** [l.slice(start, end)] with integer arguments *)
Definition slice {A : Type} (l : list A) (start end_ : Z) : list A :=
  let len := Z.of_nat (List.length l) in
  let k := if start <? 0 then Z.max (len + start) 0 else Z.min start len in
  let final := if end_ <? 0 then Z.max (len + end_) 0 else Z.min end_ len in
  firstn (Z.to_nat (final - k)) (skipn (Z.to_nat k) l).

Fixpoint insertBy {A : Type} (cmp : A -> A -> Z) (x : A) (l : list A) : list A :=
  match l with
  | [] => [x]
  | y :: l' => if cmp x y <=? 0 then x :: l else y :: insertBy cmp x l'
  end.

(** [l.sort(cmp)]: the sort of the engine is stable; for a comparator that
    is a total preorder its result is the stable insertion sort. *)
Definition sort {A : Type} (cmp : A -> A -> Z) (l : list A) : list A :=
  fold_right (insertBy cmp) [] l.

(** [l.filter(x => x !== null)] *)
Fixpoint filterNull {A : Type} (l : list (option A)) : list A :=
  match l with
  | [] => []
  | Some x :: l' => x :: filterNull l'
  | None :: l' => filterNull l'
  end.

(** [l.reduce((sum, x) => sum + f x, 0)] *)
Definition sumOf {A : Type} (f : A -> Z) (l : list A) : Z :=
  fold_left (fun sum x => sum + f x) l 0.

End Js.

(* ------------------------------------------------------------------ *)
(** ** middleware/errorHandler.ts *)

Module ErrorHandler.

(** An error value: [HttpError] is what [createError] builds (it carries a
    [statusCode]); [SystemError] is the rejection of a file-system call,
    which has no [statusCode] property. *)
Inductive CustomError : Type :=
| HttpError (message : string) (statusCode : Z)
| SystemError (code : string).

Definition createError (message : string) (statusCode : Z) : CustomError :=
  HttpError message statusCode.

Definition statusCode (e : CustomError) : option Z :=
  match e with
  | HttpError _ c => Some c
  | SystemError _ => None
  end.

Inductive result (A : Type) : Type :=
| Ok (a : A)
| Err (e : CustomError).
Arguments Ok {A} a.
Arguments Err {A} e.

Definition bind {A B : Type} (m : result A) (k : A -> result B) : result B :=
  match m with
  | Ok a => k a
  | Err e => Err e
  end.

End ErrorHandler.
Import ErrorHandler.

Notation "'await' x <- m ;; k" := (ErrorHandler.bind m (fun x => k))
  (at level 10, x name, m at level 100, k at level 200).

(* ------------------------------------------------------------------ *)
(** ** types/directory.ts *)

Inductive EntryType : Type := file | directory.

Definition typeString (t : EntryType) : string :=
  match t with
  | file => "file"
  | directory => "directory"
  end.

Definition isFileType (t : EntryType) : bool :=
  match t with file => true | directory => false end.

Definition isDirectoryType (t : EntryType) : bool :=
  match t with file => false | directory => true end.

Module Permissions.
Record t : Type := mk {
  readable : bool;
  writable : bool;
  executable : bool;
  owner : string;
  group : string;
  mode : string;
}.
End Permissions.

Module FileInfo.
Record t : Type := mk {
  name : string;
  path : string;
  size : Z;
  extension : string;
  type : EntryType;
  createdDate : string;
  modifiedDate : string;
  permissions : Permissions.t;
  isHidden : bool;
}.
End FileInfo.

Module Pagination.
Record t : Type := mk {
  page : Z;
  limit : Z;
  total : Z;
  totalPages : Js.number;
  hasNext : bool;
  hasPrevious : bool;
}.
End Pagination.

Module ListingMetadata.
Record t : Type := mk {
  totalFiles : Z;
  totalDirectories : Z;
  totalSize : Z;
  scannedAt : string;
}.
End ListingMetadata.

Module DirectoryListingResponse.
Record t : Type := mk {
  path : string;
  items : list FileInfo.t;
  pagination : Pagination.t;
  metadata : ListingMetadata.t;
}.
End DirectoryListingResponse.

Module AccessFlags.
Record t : Type := mk {
  readable : bool;
  writable : bool;
  executable : bool;
}.
End AccessFlags.

Module DirectoryMetadata.
Record t : Type := mk {
  path : string;
  exists_ : bool;
  isDirectory : bool;
  permissions : AccessFlags.t;
  totalItems : Z;
  totalSize : Z;
  lastAccessed : string;
  lastModified : string;
  created : string;
}.
End DirectoryMetadata.

Inductive SortBy : Type := ByName | BySize | ByModified | ByType.
Inductive SortOrder : Type := Asc | Desc.

(* ------------------------------------------------------------------ *)
(** ** The environment: file system and platform *)

(** [fs.constants.R_OK], [W_OK], [X_OK] *)
Inductive AccessMode : Type := R_OK | W_OK | X_OK.

(** [fs.Stats], the fields and predicates the service reads. *)
Module Stats.
Record t : Type := mk {
  mode : Z;
  uid : option Z;
  gid : option Z;
  size : Z;
  isDirectory : bool;
  isFile : bool;
  atime : Z;
  mtime : Z;
  birthtime : Z;
}.
End Stats.

(** One snapshot of the disk as the promisified [fs] calls see it:
    [access] resolves ([true]) or rejects; [stat] and [readdir] resolve
    with a value or reject with an error code. *)
Record FileSystem : Type := {
  access : string -> AccessMode -> bool;
  stat : string -> Stats.t + string;
  readdir : string -> list string + string;
}.

Definition awaitFs {A : Type} (r : A + string) : result A :=
  match r with
  | inl a => Ok a
  | inr code => Err (SystemError code)
  end.

Record Runtime : Type := {
  isWindows : bool;                         (* process.platform === 'win32' *)
  normalize : string -> string;             (* path.normalize *)
  resolve : string -> string;               (* path.resolve *)
  join : string -> string -> string;        (* path.join *)
  extname : string -> string;               (* path.extname *)
  localeCompare : string -> string -> Z;    (* a.localeCompare(b) *)
  toISOString : Z -> string;                (* moment(d).toISOString(), d.toISOString() *)
  getTime : string -> Z;                    (* new Date(s).getTime() *)
  userInfo : option string;                 (* os.userInfo().username; None: it throws *)
}.

(* ------------------------------------------------------------------ *)
(** ** services/directoryService.ts *)

Module DirectoryService.

Definition MAX_PATH_LENGTH : Z := 4096.

Definition RESTRICTED_PATHS : list string :=
  [ "/etc/shadow";
    "/etc/passwd";
    "C:\Windows\System32\config";
    "C:\Windows\System32\drivers\etc" ].

Section WithEnvironment.

Variable rt : Runtime.
Variable fs : FileSystem.

(** Validates if the given path is safe to access. *)
Definition validatePath (dirPath : string) : result unit :=
  if (dirPath =? "")%string
     || (MAX_PATH_LENGTH <? Z.of_nat (String.length dirPath))
  then Err (createError "Invalid path length" 400)
  else
    let normalizedPath := normalize rt dirPath in
    if Js.includes normalizedPath ".."
    then Err (createError "Path traversal not allowed" 403)
    else
      let isRestricted :=
        existsb (fun restrictedPath =>
                   Js.includes (Js.toLowerCase normalizedPath)
                               (Js.toLowerCase restrictedPath))
                RESTRICTED_PATHS in
      if isRestricted
      then Err (createError "Access to this path is restricted" 403)
      else if access fs normalizedPath R_OK
           then Ok tt
           else Err (createError "Path does not exist or is not readable" 404).

(** Gets file permissions and attributes. *)
Definition getFilePermissions (filePath : string) (stats : Stats.t)
  : Permissions.t :=
  let mode := Stats.mode stats in
  let readable := access fs filePath R_OK in
  let writable := access fs filePath W_OK in
  let executable := access fs filePath X_OK in
  match isWindows rt, Stats.uid stats, Stats.gid stats with
  | false, Some uid, Some gid =>
      let owner :=
        match userInfo rt with
        | Some username =>
            if (username =? "")%string then Js.toStringRadix uid 10 else username
        | None => Js.toStringRadix uid 10
        end in
      Permissions.mk readable writable executable
                     owner (Js.toStringRadix gid 10) (Js.toStringRadix mode 8)
  | _, _, _ =>
      Permissions.mk readable writable executable
                     "unknown" "unknown" (Js.toStringRadix mode 8)
  end.

(** Converts file stats to a FileInfo object. *)
Definition createFileInfo (filePath fileName : string) : result FileInfo.t :=
  await stats <- awaitFs (stat fs filePath) ;;
  let permissions := getFilePermissions filePath stats in
  let isDirectory := Stats.isDirectory stats in
  let extension :=
    if isDirectory then "" else Js.toLowerCase (extname rt fileName) in
  Ok (FileInfo.mk
        fileName
        filePath
        (if isDirectory then 0 else Stats.size stats)
        extension
        (if isDirectory then directory else file)
        (toISOString rt (Stats.birthtime stats))
        (toISOString rt (Stats.mtime stats))
        permissions
        (Js.startsWith fileName "."
         || (isWindows rt && Js.startsWith fileName "$"))).

(** The body of [fileNames.map(async (fileName) => ...)]: the FileInfo
    of one child, or [null] ([None]) when it is hidden and hidden files
    were not requested, or when its resolution threw. *)
Definition resolveEntry (normalizedPath : string) (includeHidden : bool)
           (fileName : string) : option FileInfo.t :=
  let filePath := join rt normalizedPath fileName in
  match createFileInfo filePath fileName with
  | Ok fileInfo =>
      if negb includeHidden && FileInfo.isHidden fileInfo
      then None
      else Some fileInfo
  | Err _ => None
  end.

(** The comparator handed to [allItems.sort]. *)
Definition compareItems (sortBy : SortBy) (sortOrder : SortOrder)
           (a b : FileInfo.t) : Z :=
  let comparison :=
    match sortBy with
    | ByName => localeCompare rt (FileInfo.name a) (FileInfo.name b)
    | BySize => FileInfo.size a - FileInfo.size b
    | ByModified =>
        getTime rt (FileInfo.modifiedDate a) - getTime rt (FileInfo.modifiedDate b)
    | ByType =>
        localeCompare rt (typeString (FileInfo.type a)) (typeString (FileInfo.type b))
    end in
  match sortOrder with
  | Desc => - comparison
  | Asc => comparison
  end.

(** [allItems] before the sort: the resolved, non-null entries in the
    order of [readdir]. *)
Definition collectItems (normalizedPath : string) (includeHidden : bool)
           (fileNames : list string) : list FileInfo.t :=
  Js.filterNull (map (resolveEntry normalizedPath includeHidden) fileNames).

(** [allItems] after the sort. *)
Definition sortItems (sortBy : SortBy) (sortOrder : SortOrder)
           (allItems : list FileInfo.t) : list FileInfo.t :=
  Js.sort (compareItems sortBy sortOrder) allItems.

(** Pagination and metadata of [listDirectory], from the sorted
    [allItems] to the returned object. *)
Definition buildResponse (now : Z) (normalizedPath : string)
           (allItems : list FileInfo.t) (page limit : Z)
  : DirectoryListingResponse.t :=
  let total := Z.of_nat (List.length allItems) in
  let totalPages := Js.ceilDiv total limit in
  let startIndex := (page - 1) * limit in
  let endIndex := startIndex + limit in
  let paginatedItems := Js.slice allItems startIndex endIndex in
  let totalFiles :=
    Z.of_nat (List.length
                (filter (fun item => isFileType (FileInfo.type item)) allItems)) in
  let totalDirectories :=
    Z.of_nat (List.length
                (filter (fun item => isDirectoryType (FileInfo.type item)) allItems)) in
  let totalSize :=
    Js.sumOf FileInfo.size
             (filter (fun item => isFileType (FileInfo.type item)) allItems) in
  DirectoryListingResponse.mk
    normalizedPath
    paginatedItems
    (Pagination.mk page limit total totalPages
                   (Js.ltNumber page totalPages)
                   (1 <? page))
    (ListingMetadata.mk totalFiles totalDirectories totalSize
                        (toISOString rt now)).

(** Lists directory contents with pagination and metadata. *)
Definition listDirectory (now : Z) (dirPath : string) (page limit : Z)
           (includeHidden : bool) (sortBy : SortBy) (sortOrder : SortOrder)
  : result DirectoryListingResponse.t :=
  await _ <- validatePath dirPath ;;
  let normalizedPath := resolve rt dirPath in
  await pathStats <- awaitFs (stat fs normalizedPath) ;;
  if negb (Stats.isDirectory pathStats)
  then Err (createError "Path is not a directory" 400)
  else
    await fileNames <- awaitFs (readdir fs normalizedPath) ;;
    let allItems :=
      sortItems sortBy sortOrder
                (collectItems normalizedPath includeHidden fileNames) in
    Ok (buildResponse now normalizedPath allItems page limit).

(** The size one child contributes to the probe's [totalSize]. *)
Definition itemSize (normalizedPath item : string) : Z :=
  let itemPath := join rt normalizedPath item in
  match stat fs itemPath with
  | inl itemStats =>
      if Stats.isFile itemStats then Stats.size itemStats else 0
  | inr _ => 0
  end.

(** The descriptor returned for a path that does not exist. *)
Definition absentMetadata (normalizedPath : string) : DirectoryMetadata.t :=
  DirectoryMetadata.mk normalizedPath false false
                       (AccessFlags.mk false false false)
                       0 0 "" "" "".

(** The [try] block of [getDirectoryMetadata]. *)
Definition probe (dirPath normalizedPath : string) : result DirectoryMetadata.t :=
  await _ <- validatePath dirPath ;;
  await stats <- awaitFs (stat fs normalizedPath) ;;
  let permissions := getFilePermissions normalizedPath stats in
  let '(totalItems, totalSize) :=
    if Stats.isDirectory stats then
      match readdir fs normalizedPath with
      | inl items =>
          (Z.of_nat (List.length items),
           Js.sumOf (fun size => size) (map (itemSize normalizedPath) items))
      | inr _ => (0, 0)
      end
    else (0, 0) in
  Ok (DirectoryMetadata.mk
        normalizedPath
        true
        (Stats.isDirectory stats)
        (AccessFlags.mk (Permissions.readable permissions)
                        (Permissions.writable permissions)
                        (Permissions.executable permissions))
        totalItems
        totalSize
        (toISOString rt (Stats.atime stats))
        (toISOString rt (Stats.mtime stats))
        (toISOString rt (Stats.birthtime stats))).

(** Gets metadata for a specific directory. *)
Definition getDirectoryMetadata (dirPath : string) : result DirectoryMetadata.t :=
  let normalizedPath := resolve rt dirPath in
  match probe dirPath normalizedPath with
  | Ok metadata => Ok metadata
  | Err error =>
      match statusCode error with
      | Some 404 => Ok (absentMetadata normalizedPath)
      | _ => Err error
      end
  end.

End WithEnvironment.

End DirectoryService.

(* ------------------------------------------------------------------ *)
(** ** controllers/directoryController.ts *)

(** The express-validator checks and sanitizers the controller chains. *)
Module Validator.

Definition isDigit (c : ascii) : bool :=
  let n := nat_of_ascii c in (Nat.leb 48 n && Nat.leb n 57)%bool.

Fixpoint allDigits (s : string) : bool :=
  match s with
  | EmptyString => true
  | String c s' => isDigit c && allDigits s'
  end.

Fixpoint digitsValue (acc : Z) (s : string) : Z :=
  match s with
  | EmptyString => acc
  | String c s' => digitsValue (10 * acc + (Z.of_nat (nat_of_ascii c) - 48)) s'
  end.

(** The integer a string denotes when it has the shape [[-+]?[0-9]+],
    which is what [isInt] accepts and [toInt] ([parseInt(s, 10)]) reads. *)
Definition intOf (s : string) : option Z :=
  let unsigned (t : string) :=
    if negb (t =? "")%string && allDigits t then Some (digitsValue 0 t) else None in
  match s with
  | String "-" t => option_map Z.opp (unsigned t)
  | String "+" t => unsigned t
  | _ => unsigned s
  end.

(** [isInt({ min, max })] *)
Definition isInt (min max : option Z) (s : string) : bool :=
  match intOf s with
  | Some n =>
      match min with Some lo => lo <=? n | None => true end
      && match max with Some hi => n <=? hi | None => true end
  | None => false
  end.

(** [toInt()], that is [parseInt(s, 10)], on a text [isInt] accepts: the
    integer itself as long as a JS number holds it exactly (below [2^53] in
    magnitude), which the limit rule guarantees and the page rule does not.
    A string that is not an integer gives [NaN], which the controller never
    sees after [isInt]. *)
Definition toInt (s : string) : Z :=
  match intOf s with
  | Some n => n
  | None => 0
  end.

Definition isIn (values : list string) (s : string) : bool :=
  existsb (String.eqb s) values.

Definition isBoolean (s : string) : bool := isIn ["true"; "false"; "1"; "0"] s.

Definition toBoolean (s : string) : bool := negb (isIn ["0"; "false"; ""] s).

End Validator.

Module DirectoryController.

(** [req.query] of a request that gives each parameter at most once and
    without brackets: each parameter is absent or a string.  A repeated
    parameter (an array) or a bracketed one (an object) has no counterpart
    here. *)
Record Query : Type := {
  path : option string;
  page : option string;
  limit : option string;
  includeHidden : option string;
  sortBy : option string;
  sortOrder : option string;
}.

(** [query(field).optional().<check>.withMessage(message)] *)
Definition optional (value : option string) (check : string -> bool)
           (message : string) : list string :=
  match value with
  | None => []
  | Some s => if check s then [] else [message]
  end.

(** [query('path').notEmpty()...isLength({ max: 4096 })...]; the length
    [isLength] counts is the number of characters of the text, which is its
    [length] for the single-unit characters the strings here are made of. *)
Definition pathRules (value : option string) : list string :=
  let s := match value with Some s => s | None => "" end in
  (if (s =? "")%string then ["Path is required"] else [])
    ++ (if 4096 <? Z.of_nat (String.length s) then ["Path too long"] else []).

(** Validation rules for directory listing: the messages of
    [validationResult(req)]. *)
Definition validateDirectoryListing (q : Query) : list string :=
  pathRules (path q)
    ++ optional (page q) (Validator.isInt (Some 1) None)
         "Page must be a positive integer"
    ++ optional (limit q) (Validator.isInt (Some 1) (Some 1000))
         "Limit must be between 1 and 1000"
    ++ optional (includeHidden q) Validator.isBoolean
         "includeHidden must be a boolean"
    ++ optional (sortBy q) (Validator.isIn ["name"; "size"; "modified"; "type"])
         "sortBy must be one of: name, size, modified, type"
    ++ optional (sortOrder q) (Validator.isIn ["asc"; "desc"])
         "sortOrder must be asc or desc".

(** Validation rules for directory metadata. *)
Definition validateDirectoryMetadata (q : Query) : list string :=
  pathRules (path q).

Definition sortByOf (s : string) : SortBy :=
  if (s =? "size")%string then BySize
  else if (s =? "modified")%string then ByModified
  else if (s =? "type")%string then ByType
  else ByName.

Definition sortOrderOf (s : string) : SortOrder :=
  if (s =? "desc")%string then Desc else Asc.

(** What the handler does with the request: the 400 answer of a failed
    validation, the 200 envelope, or the error handed to [next]. *)
Inductive Response (A : Type) : Type :=
| ValidationFailed (details : list string)
| Success (data : A)
| Next (error : CustomError).
Arguments ValidationFailed {A} details.
Arguments Success {A} data.
Arguments Next {A} error.

(** The arguments the handler passes to [DirectoryService.listDirectory]:
    the query with the defaults of the destructuring, read after the
    sanitizers [toInt] and [toBoolean] of the validation chain have written
    their results back to [req.query]. *)
Record ListingCall : Type := {
  callPath : string;
  callPage : Z;
  callLimit : Z;
  callIncludeHidden : bool;
  callSortBy : SortBy;
  callSortOrder : SortOrder;
}.

Definition listingCall (q : Query) : ListingCall :=
  {| callPath := match path q with Some s => s | None => "" end;
     callPage := match page q with Some s => Validator.toInt s | None => 1 end;
     callLimit := match limit q with Some s => Validator.toInt s | None => 100 end;
     callIncludeHidden :=
       match includeHidden q with Some s => Validator.toBoolean s | None => false end;
     callSortBy := match sortBy q with Some s => sortByOf s | None => ByName end;
     callSortOrder := match sortOrder q with Some s => sortOrderOf s | None => Asc end |}.

(** Controller for listing directory contents. *)
Definition listDirectory (rt : Runtime) (fs : FileSystem) (now : Z) (q : Query)
  : Response DirectoryListingResponse.t :=
  match validateDirectoryListing q with
  | (_ :: _) as errors => ValidationFailed errors
  | [] =>
      let c := listingCall q in
      match DirectoryService.listDirectory rt fs now
              (callPath c) (callPage c) (callLimit c)
              (callIncludeHidden c) (callSortBy c) (callSortOrder c) with
      | Ok result => Success result
      | Err error => Next error
      end
  end.

(** Controller for getting directory metadata. *)
Definition getDirectoryMetadata (rt : Runtime) (fs : FileSystem) (q : Query)
  : Response DirectoryMetadata.t :=
  match validateDirectoryMetadata q with
  | (_ :: _) as errors => ValidationFailed errors
  | [] =>
      match DirectoryService.getDirectoryMetadata rt fs
              (match path q with Some s => s | None => "" end) with
      | Ok metadata => Success metadata
      | Err error => Next error
      end
  end.

End DirectoryController.

(* ------------------------------------------------------------------ *)
(** ** A POSIX instance of the platform *)

Module Posix.

Definition isSlash (c : ascii) : bool := (c =? "/")%char.

(** The segments of a path between separators. *)
Fixpoint segments (sep : ascii -> bool) (s : string) : list string :=
  match s with
  | EmptyString => [EmptyString]
  | String c s' =>
      if sep c then EmptyString :: segments sep s'
      else match segments sep s' with
           | seg :: rest => String c seg :: rest
           | [] => [String c EmptyString]
           end
  end.

(** [normalizeString] of Node's [path]: [res] is the stack of segments
    kept so far, innermost first. *)
Fixpoint normalizeSegments (allowAboveRoot : bool) (segs res : list string)
  : list string :=
  match segs with
  | [] => rev res
  | seg :: rest =>
      if ((seg =? "") || (seg =? "."))%string
      then normalizeSegments allowAboveRoot rest res
      else if (seg =? "..")%string
      then match res with
           | top :: res' =>
               if (top =? "..")%string
               then normalizeSegments allowAboveRoot rest
                      (if allowAboveRoot then ".." :: res else res)
               else normalizeSegments allowAboveRoot rest res'
           | [] =>
               normalizeSegments allowAboveRoot rest
                 (if allowAboveRoot then [".."] else [])
           end
      else normalizeSegments allowAboveRoot rest (seg :: res)
  end.

Fixpoint endsWithSlash (s : string) : bool :=
  match s with
  | EmptyString => false
  | String c EmptyString => isSlash c
  | String _ s' => endsWithSlash s'
  end.

(** [path.posix.normalize] *)
Definition normalize (p : string) : string :=
  if (p =? "")%string then "."
  else
    let isAbsolute := Js.startsWith p "/" in
    let trailingSeparator := endsWithSlash p in
    let body :=
      String.concat "/" (normalizeSegments (negb isAbsolute) (segments isSlash p) []) in
    if (body =? "")%string
    then (if isAbsolute then "/" else if trailingSeparator then "./" else ".")
    else
      let body := if trailingSeparator then body ++ "/" else body in
      if isAbsolute then "/" ++ body else body.

(** [path.posix.resolve] of one argument, from the working directory [cwd]
    (an absolute path). *)
Definition resolve (cwd p : string) : string :=
  let full :=
    if Js.startsWith p "/" then p
    else if (p =? "")%string then cwd
    else cwd ++ "/" ++ p in
  "/" ++ String.concat "/" (normalizeSegments false (segments isSlash full) []).

(** [path.posix.join] of two arguments *)
Definition join (a b : string) : string :=
  if (a =? "")%string then normalize b
  else if (b =? "")%string then normalize a
  else normalize (a ++ "/" ++ b).

Fixpoint lastOr (d : string) (l : list string) : string :=
  match l with
  | [] => d
  | x :: l' => lastOr x l'
  end.

(** The text from the last dot of [s] on, [None] when [s] has no dot. *)
Fixpoint fromLastDot (s : string) : option string :=
  match s with
  | EmptyString => None
  | String c s' =>
      match fromLastDot s' with
      | Some e => Some e
      | None => if (c =? ".")%char then Some s else None
      end
  end.

(** [path.posix.extname]: the extension of the last segment; a name
    whose only dot is its first character has none. *)
Definition extname (p : string) : string :=
  let base := lastOr "" (segments isSlash p) in
  match base with
  | EmptyString => ""
  | String c rest =>
      if (base =? "..")%string then ""
      else match fromLastDot rest with
           | Some e => e
           | None => ""
           end
  end.

(** [a.localeCompare(b)] on lower-case ASCII names, where the collation
    order is the alphabetical one. *)
Definition localeCompare (a b : string) : Z :=
  match String.compare a b with
  | Lt => -1
  | Eq => 0
  | Gt => 1
  end.

(** Civil date of a day number (days since 1970-01-01). *)
Definition civilFromDays (days : Z) : Z * Z * Z :=
  let z := days + 719468 in
  let era := z / 146097 in
  let doe := z - era * 146097 in
  let yoe := (doe - doe / 1460 + doe / 36524 - doe / 146096) / 365 in
  let doy := doe - (365 * yoe + yoe / 4 - yoe / 100) in
  let mp := (5 * doy + 2) / 153 in
  let d := doy - (153 * mp + 2) / 5 + 1 in
  let m := if mp <? 10 then mp + 3 else mp - 9 in
  let y := yoe + era * 400 in
  (if m <=? 2 then y + 1 else y, m, d).

Definition daysFromCivil (y m d : Z) : Z :=
  let y := if m <=? 2 then y - 1 else y in
  let era := y / 400 in
  let yoe := y - era * 400 in
  let doy := (153 * (if 2 <? m then m - 3 else m + 9) + 2) / 5 + d - 1 in
  let doe := yoe * 365 + yoe / 4 - yoe / 100 + doy in
  era * 146097 + doe - 719468.

Fixpoint zeros (n : nat) : string :=
  match n with
  | O => EmptyString
  | S n' => String "0" (zeros n')
  end.

(** [s.padStart(width, '0')] *)
Definition padLeft (width : nat) (s : string) : string :=
  zeros (width - String.length s) ++ s.

Definition fixed (width : nat) (n : Z) : string :=
  padLeft width (Js.toStringRadix n 10).

(** [Date.prototype.toISOString] of the instant [ms], for the years
    0000 to 9999. *)
Definition toISOString (ms : Z) : string :=
  let days := ms / 86400000 in
  let rest := ms mod 86400000 in
  let '(y, m, d) := civilFromDays days in
  fixed 4 y ++ "-" ++ fixed 2 m ++ "-" ++ fixed 2 d ++ "T"
    ++ fixed 2 (rest / 3600000) ++ ":" ++ fixed 2 (rest / 60000 mod 60) ++ ":"
    ++ fixed 2 (rest / 1000 mod 60) ++ "." ++ fixed 3 (rest mod 1000) ++ "Z".

Definition field (start len : nat) (s : string) : Z :=
  Validator.digitsValue 0 (String.substring start len s).

(** [new Date(s).getTime()] of a string in the format of [toISOString]. *)
Definition getTime (s : string) : Z :=
  daysFromCivil (field 0 4 s) (field 5 2 s) (field 8 2 s) * 86400000
  + field 11 2 s * 3600000 + field 14 2 s * 60000 + field 17 2 s * 1000
  + field 20 3 s.

Definition runtime (cwd username : string) : Runtime :=
  Build_Runtime false normalize (resolve cwd) join extname localeCompare
                toISOString getTime (Some username).

End Posix.

(* ------------------------------------------------------------------ *)
(** ** A sample disk for the examples *)

Module Sample.

(** The service runs in [/srv/app] as user [node]. *)
Definition rt : Runtime := Posix.runtime "/srv/app" "node".

Definition fileStats (size mtime : Z) : Stats.t :=
  Stats.mk 33188 (Some 1000) (Some 1000) size false true mtime mtime mtime.

Definition dirStats (mtime : Z) : Stats.t :=
  Stats.mk 16877 (Some 1000) (Some 1000) 4096 true false mtime mtime mtime.

(** Every node of the disk, with the outcome of its read, write and
    execute probes. *)
Definition nodes : list (string * (Stats.t * (bool * bool * bool))) :=
  [ ("/srv/abc", (dirStats 1700000000000, (true, true, true)));
    ("/srv/abc/a", (fileStats 1 1700000001000, (true, true, false)));
    ("/srv/abc/b", (fileStats 2 1700000002000, (true, true, false)));
    ("/srv/abc/c", (fileStats 3 1700000003000, (true, true, false)));
    ("/srv/data", (dirStats 1700000000000, (true, false, true)));
    ("/srv/data/b.txt", (fileStats 10 1700000005000, (true, false, false)));
    ("/srv/data/a.txt", (fileStats 5 1700000004000, (true, true, false)));
    ("/srv/data/.hidden", (fileStats 1 1700000006000, (true, true, false)));
    ("/srv/data/locked.bin", (fileStats 7 1700000007000, (false, false, false)));
    ("/srv/data/docs", (dirStats 1700000008000, (true, true, true))) ].

Fixpoint lookup {A : Type} (p : string) (table : list (string * A)) : option A :=
  match table with
  | [] => None
  | (q, a) :: table' => if (p =? q)%string then Some a else lookup p table'
  end.

(** [gone.tmp] is returned by [readdir] but was removed before its stat. *)
Definition disk : FileSystem :=
  {| access p mode :=
       match lookup p nodes with
       | Some (_, (r, w, x)) =>
           match mode with R_OK => r | W_OK => w | X_OK => x end
       | None => false
       end;
     stat p :=
       match lookup p nodes with
       | Some (stats, _) => inl stats
       | None => inr "ENOENT"
       end;
     readdir p :=
       if (p =? "/srv/abc")%string then inl ["c"; "a"; "b"]
       else if (p =? "/srv/data")%string
       then inl ["b.txt"; "a.txt"; ".hidden"; "gone.tmp"; "locked.bin"; "docs"]
       else match lookup p nodes with
            | Some _ => inr "ENOTDIR"
            | None => inr "ENOENT"
            end |}.


(** A path of 4099 characters that starts with a parent segment. *)
Definition longTraversal : string :=
  "../" ++ Posix.zeros 4096.

End Sample.

(* ------------------------------------------------------------------ *)
(** ** The vocabulary of the specification *)

(** The four ways the Path Guard fails, and the error [validatePath]
    throws for each. *)
Inductive GuardFailure : Type :=
| InvalidInput
| PathTraversal
| AccessDenied
| NotFound.

Definition guardError (k : GuardFailure) : CustomError :=
  match k with
  | InvalidInput => createError "Invalid path length" 400
  | PathTraversal => createError "Path traversal not allowed" 403
  | AccessDenied => createError "Access to this path is restricted" 403
  | NotFound => createError "Path does not exist or is not readable" 404
  end.

(** A path contains a parent-directory traversal segment: one of its
    segments, for the separators [sep], is [..]. *)
Definition hasTraversalSegment (sep : ascii -> bool) (p : string) : Prop :=
  In ".." (Posix.segments sep p).

(** The filtered entry set of a listing: what [listDirectory] holds in
    [allItems] before the sort. *)
Definition filteredEntries (rt : Runtime) (fs : FileSystem) (dirPath : string)
           (includeHidden : bool) : list FileInfo.t :=
  match readdir fs (resolve rt dirPath) with
  | inl fileNames =>
      DirectoryService.collectItems rt fs (resolve rt dirPath) includeHidden fileNames
  | inr _ => []
  end.

(** The full filtered, sorted entry set: [allItems] after the sort. *)
Definition sortedEntries (rt : Runtime) (fs : FileSystem) (dirPath : string)
           (includeHidden : bool) (sortBy : SortBy) (sortOrder : SortOrder)
  : list FileInfo.t :=
  DirectoryService.sortItems rt sortBy sortOrder
                             (filteredEntries rt fs dirPath includeHidden).


(** The sum of the sizes of the entries whose kind is file. *)
Fixpoint fileBytes (l : list FileInfo.t) : Z :=
  match l with
  | [] => 0
  | item :: l' =>
      match FileInfo.type item with
      | file => FileInfo.size item + fileBytes l'
      | directory => fileBytes l'
      end
  end.

(** The children of a directory whose stat resolves. *)
Definition resolvable (rt : Runtime) (fs : FileSystem) (dir : string)
           (fileNames : list string) : list string :=
  filter (fun fileName =>
            match stat fs (join rt dir fileName) with
            | inl _ => true
            | inr _ => false
            end) fileNames.

(** The disk [fs] without the children whose stat fails: [readdir] does
    not report them; nothing else changes. *)
Definition withoutUnresolvable (rt : Runtime) (fs : FileSystem) : FileSystem :=
  {| access := access fs;
     stat := stat fs;
     readdir p :=
       match readdir fs p with
       | inl fileNames => inl (resolvable rt fs p fileNames)
       | inr code => inr code
       end |}.


(** A valid directory: the path passes the Path Guard, its stat resolves
    and says it is a directory, and [readdir] resolves on it. *)
Definition validDirectory (rt : Runtime) (fs : FileSystem) (dirPath : string)
  : Prop :=
  DirectoryService.validatePath rt fs dirPath = Ok tt
  /\ exists pathStats fileNames,
      stat fs (resolve rt dirPath) = inl pathStats
      /\ Stats.isDirectory pathStats = true
      /\ readdir fs (resolve rt dirPath) = inl fileNames.

(** The hidden flag of a child, from its name. *)
Definition hiddenName (rt : Runtime) (fileName : string) : bool :=
  Js.startsWith fileName "."
  || (isWindows rt && Js.startsWith fileName "$").

(** Two listing results agree on everything but the scan timestamp. *)
Definition sameButScannedAt (r1 r2 : DirectoryListingResponse.t) : Prop :=
  DirectoryListingResponse.path r1 = DirectoryListingResponse.path r2
  /\ DirectoryListingResponse.items r1 = DirectoryListingResponse.items r2
  /\ DirectoryListingResponse.pagination r1 = DirectoryListingResponse.pagination r2
  /\ ListingMetadata.totalFiles (DirectoryListingResponse.metadata r1)
     = ListingMetadata.totalFiles (DirectoryListingResponse.metadata r2)
  /\ ListingMetadata.totalDirectories (DirectoryListingResponse.metadata r1)
     = ListingMetadata.totalDirectories (DirectoryListingResponse.metadata r2)
  /\ ListingMetadata.totalSize (DirectoryListingResponse.metadata r1)
     = ListingMetadata.totalSize (DirectoryListingResponse.metadata r2).

(* ------------------------------------------------------------------ *)
(** ** middleware/errorHandler.ts: the error handler *)

Module ErrorMiddleware.

(** [error.message]: the text given to [createError]; for the rejection of
    a file-system call, the text that rejection carries. *)
Definition messageOf (error : CustomError) : string :=
  match error with
  | HttpError message _ => message
  | SystemError text => text
  end.

(** [process.env.NODE_ENV === value] *)
Definition envIs (nodeEnv : option string) (value : string) : bool :=
  match nodeEnv with
  | Some v => (v =? value)%string
  | None => false
  end.

(** What the handler sends: the status, and the body
    [{ error: { message, stack? }, timestamp }]. *)
Record Reply : Type := {
  status : Z;
  message : string;
  stack : option string;
  timestamp : string;
}.

(** [errorHandler]; [stackOf error] is [error.stack]. *)
Definition errorHandler (nodeEnv : option string) (stackOf : CustomError -> string)
           (rt : Runtime) (now : Z) (error : CustomError) : Reply :=
  let statusCode :=
    match ErrorHandler.statusCode error with
    | Some code => code
    | None => 500
    end in
  let message := messageOf error in
  let message :=
    if envIs nodeEnv "production" && (statusCode =? 500)
    then "Internal server error"
    else message in
  {| status := statusCode;
     message := message;
     stack := if envIs nodeEnv "development" then Some (stackOf error) else None;
     timestamp := toISOString rt now |}.

End ErrorMiddleware.

(* ------------------------------------------------------------------ *)
(** ** The browser side: services/directory.service.ts, file-list.ts,
       directory-browser.ts *)

Module BreadcrumbItem.
Record t : Type := mk {
  name : string;
  path : string;
}.
End BreadcrumbItem.

(** [currentSort] of the file list. *)
Module CurrentSort.
Record t : Type := mk {
  column : string;
  direction : SortOrder;
}.
End CurrentSort.

Module Frontend.

Definition isBackslash (c : ascii) : bool := (c =? "\")%char.

Definition isSlashOrBackslash (c : ascii) : bool :=
  Posix.isSlash c || isBackslash c.

Definition nonEmpty (s : string) : bool := negb (s =? "")%string.

(** [path.split(separator).filter(part => part !== '')] *)
Definition partsOf (sep : ascii -> bool) (path : string) : list string :=
  filter nonEmpty (Posix.segments sep path).

Definition isUpper (c : ascii) : bool :=
  let n := nat_of_ascii c in (Nat.leb 65 n && Nat.leb n 90)%bool.

(** [path.match(/^[A-Z]:\\?$/)] *)
Definition isDriveRoot (path : string) : bool :=
  match path with
  | String c (String ":" rest) =>
      isUpper c && ((rest =? "") || (rest =? "\"))%string
  | _ => false
  end.

(** Get parent directory path. *)
Definition getParentPath (path : string) : string :=
  if ((path =? "/") || (path =? ""))%string then "/"
  else if isDriveRoot path then path
  else
    let windows := Js.includes path "\" in
    let parts := partsOf (if windows then isBackslash else Posix.isSlash) path in
    if (List.length parts <=? 1)%nat
    then (if windows then "C:\" else "/")
    else
      let parts := removelast parts in
      if windows
      then String.concat "\" parts ++ "\"
      else "/" ++ String.concat "/" parts.

(** The body of [parts.forEach]: [step currentPath part] is the new
    [currentPath], pushed with the part as its name. *)
Fixpoint trail (step : string -> string -> string) (currentPath : string)
         (parts : list string) : list BreadcrumbItem.t :=
  match parts with
  | [] => []
  | part :: rest =>
      let currentPath := step currentPath part in
      BreadcrumbItem.mk part currentPath :: trail step currentPath rest
  end.

Definition windowsStep (currentPath part : string) : string :=
  currentPath ++ (part ++ "\").

Definition unixStep (currentPath part : string) : string :=
  currentPath ++ ("/" ++ part).

(** Create breadcrumb items from path. *)
Definition getBreadcrumbs (path : string) : list BreadcrumbItem.t :=
  if ((path =? "") || (path =? "/"))%string
  then [BreadcrumbItem.mk "Root" "/"]
  else if Js.includes path "\"
  then trail windowsStep "" (partsOf isBackslash path)
  else BreadcrumbItem.mk "Root" "/" :: trail unixStep "" (partsOf Posix.isSlash path).

(** [getDirectoryName] of the directory browser, from its [currentPath]. *)
Definition getDirectoryName (currentPath : string) : string :=
  if (currentPath =? "")%string then ""
  else
    let parts := partsOf isSlashOrBackslash currentPath in
    let lastPart := List.last parts "" in
    if (lastPart =? "")%string then "Root" else lastPart.

(** [formatPermissions] of the file list. *)
Definition formatPermissions (permissions : Permissions.t) : string :=
  (if Permissions.readable permissions then "r" else "-")
    ++ (if Permissions.writable permissions then "w" else "-")
    ++ (if Permissions.executable permissions then "x" else "-").

(** [getTotalPages] of the file list. *)
Definition getTotalPages (directoryData : option DirectoryListingResponse.t)
  : Js.number :=
  match directoryData with
  | None => Js.Num 1
  | Some data =>
      Js.ceilDiv (Pagination.total (DirectoryListingResponse.pagination data))
                 (Pagination.limit (DirectoryListingResponse.pagination data))
  end.

(** [Math.min(n, upper)] as the bound of a counting loop: [None] when it is
    [NaN] or [-Infinity], under which the loop body never runs. *)
Definition loopBound (n : Js.number) (upper : Z) : option Z :=
  match n with
  | Js.Num z => Some (Z.min z upper)
  | Js.PosInfinity => Some upper
  | Js.NegInfinity => None
  | Js.NaN => None
  end.

(** [for (let i = first; i <= last; i++) pages.push(i)] *)
Definition countUp (first last : Z) : list Z :=
  map (fun k => first + Z.of_nat k) (seq 0 (Z.to_nat (last - first + 1))).

(** [getPageNumbers] of the file list. *)
Definition getPageNumbers (directoryData : option DirectoryListingResponse.t)
  : list Z :=
  let totalPages := getTotalPages directoryData in
  let currentPage :=
    match directoryData with
    | Some data =>
        let page := Pagination.page (DirectoryListingResponse.pagination data) in
        if page =? 0 then 1 else page
    | None => 1
    end in
  let startPage := Z.max 1 (currentPage - 2) in
  match loopBound totalPages (currentPage + 2) with
  | Some endPage => countUp startPage endPage
  | None => []
  end.

(** [onSortChange] of the file list: the new [currentSort] and the event
    [{ sortBy, sortOrder }] it emits. *)
Definition onSortChange (sortBy : string) (currentSort : CurrentSort.t)
  : CurrentSort.t * (string * SortOrder) :=
  let currentSort :=
    if (CurrentSort.column currentSort =? sortBy)%string
    then CurrentSort.mk (CurrentSort.column currentSort)
                        (match CurrentSort.direction currentSort with
                         | Asc => Desc
                         | Desc => Asc
                         end)
    else CurrentSort.mk sortBy Asc in
  (currentSort, (sortBy, CurrentSort.direction currentSort)).

End Frontend.

(* ------------------------------------------------------------------ *)
(** * Properties *)

(** ** Strings: a segment of a path is a substring of it *)

Section StringFacts.

Lemma startsWith_append (t s : string) : Js.startsWith (t ++ s) t = true.
Proof.
  unfold Js.startsWith.
  induction t as [|c t IH]; simpl.
  - now destruct s.
  - destruct (ascii_dec c c); [exact IH | congruence].
Qed.

Lemma includes_unfold (s t : string) :
  Js.includes s t =
  if Js.startsWith s t then true
  else match s with
       | EmptyString => false
       | String _ s' => Js.includes s' t
       end.
Proof. destruct s; reflexivity. Qed.

Lemma includes_infix (pre t post : string) :
  Js.includes (pre ++ t ++ post) t = true.
Proof.
  induction pre as [|c pre IH].
  - rewrite includes_unfold.
    change ("" ++ t ++ post)%string with (t ++ post)%string.
    now rewrite startsWith_append.
  - rewrite includes_unfold.
    change (String c pre ++ t ++ post)%string
      with (String c (pre ++ t ++ post)).
    cbv iota. rewrite IH. now destruct (Js.startsWith _ _).
Qed.

Lemma segments_not_nil (sep : ascii -> bool) (s : string) :
  Posix.segments sep s <> [].
Proof.
  destruct s as [|c s]; simpl; [discriminate|].
  destruct (sep c); [discriminate|].
  destruct (Posix.segments sep s); discriminate.
Qed.

(** The first segment is a prefix, the others occur further on. *)
Lemma segments_shape (sep : ascii -> bool) (s : string) :
  exists seg0 rest,
    Posix.segments sep s = seg0 :: rest
    /\ (exists post, s = (seg0 ++ post)%string)
    /\ (forall seg, In seg rest ->
                    exists pre post, s = (pre ++ seg ++ post)%string).
Proof.
  induction s as [|c s (seg0 & rest & E & (post0 & H0) & Hrest)]; simpl.
  - exists ""%string, []. repeat split.
    + now exists ""%string.
    + intros seg [].
  - rewrite E. destruct (sep c).
    + exists ""%string, (seg0 :: rest). repeat split.
      * now exists (String c s).
      * intros seg [<-|Hin].
        -- exists (String c ""), post0. simpl. now rewrite H0 at 1.
        -- destruct (Hrest _ Hin) as (pre & post & Hs).
           exists (String c pre), post. simpl. now rewrite Hs at 1.
    + exists (String c seg0), rest. repeat split.
      * exists post0. simpl. now rewrite H0 at 1.
      * intros seg Hin. destruct (Hrest _ Hin) as (pre & post & Hs).
        exists (String c pre), post. simpl. now rewrite Hs at 1.
Qed.

Lemma segment_infix (sep : ascii -> bool) (s seg : string) :
  In seg (Posix.segments sep s) ->
  exists pre post, s = (pre ++ seg ++ post)%string.
Proof.
  destruct (segments_shape sep s) as (seg0 & rest & -> & (post0 & H0) & Hrest).
  intros [<-|Hin].
  - now exists ""%string, post0.
  - now apply Hrest.
Qed.

(** A path with a [..] segment contains the text [..]. *)
Lemma includes_traversal_segment (sep : ascii -> bool) (s : string) :
  In ".." (Posix.segments sep s) -> Js.includes s ".." = true.
Proof.
  intros Hin. destruct (segment_infix _ _ _ Hin) as (pre & post & ->).
  apply includes_infix.
Qed.

End StringFacts.

(** ** Lists: sorting, slicing, counting *)

Section ListFacts.

Context {A : Type}.

Lemma insertBy_perm (cmp : A -> A -> Z) (x : A) (l : list A) :
  Permutation (Js.insertBy cmp x l) (x :: l).
Proof.
  induction l as [|y l IH]; simpl.
  - reflexivity.
  - destruct (cmp x y <=? 0).
    + reflexivity.
    + rewrite IH. apply perm_swap.
Qed.

(** Sorting reorders: it neither drops nor duplicates an element. *)
Lemma sort_perm (cmp : A -> A -> Z) (l : list A) :
  Permutation (Js.sort cmp l) l.
Proof.
  unfold Js.sort. induction l as [|x l IH]; simpl.
  - reflexivity.
  - rewrite insertBy_perm. now constructor.
Qed.

Lemma sort_length (cmp : A -> A -> Z) (l : list A) :
  List.length (Js.sort cmp l) = List.length l.
Proof. apply Permutation_length, sort_perm. Qed.

Lemma sort_In (cmp : A -> A -> Z) (l : list A) (x : A) :
  In x (Js.sort cmp l) <-> In x l.
Proof.
  split; apply Permutation_in; [|symmetry]; apply sort_perm.
Qed.

(** For a comparator that is total and transitive the result of the sort
    is in order. *)
Lemma insertBy_sorted (cmp : A -> A -> Z) :
  (forall x y, cmp x y <= 0 \/ cmp y x <= 0) ->
  (forall x y z, cmp x y <= 0 -> cmp y z <= 0 -> cmp x z <= 0) ->
  forall x l,
    StronglySorted (fun a b => cmp a b <= 0) l ->
    StronglySorted (fun a b => cmp a b <= 0) (Js.insertBy cmp x l).
Proof.
  intros Htotal Htrans x l. induction l as [|y l IH]; intros Hsorted; simpl.
  - repeat constructor.
  - apply StronglySorted_inv in Hsorted. destruct Hsorted as [Hl Hy].
    destruct (Z.leb_spec (cmp x y) 0) as [Hxy|Hxy].
    + constructor; [now constructor|].
      constructor; [exact Hxy|].
      rewrite Forall_forall in *. intros z Hz. eapply Htrans; eauto.
    + constructor; [now apply IH|].
      rewrite Forall_forall in *. intros z Hz.
      apply (Permutation_in _ (insertBy_perm cmp x l)) in Hz.
      destruct Hz as [<-|Hz]; [|now apply Hy].
      destruct (Htotal x y); [lia | assumption].
Qed.

Lemma StronglySorted_impl_cmp (R R' : A -> A -> Prop) (l : list A) :
  (forall a b, R a b -> R' a b) -> StronglySorted R l -> StronglySorted R' l.
Proof.
  intros Himpl. induction 1 as [|a l _ IH Hall]; constructor; [exact IH|].
  rewrite Forall_forall in *. auto.
Qed.

Lemma sort_sorted (cmp : A -> A -> Z) (l : list A) :
  (forall x y, cmp x y <= 0 \/ cmp y x <= 0) ->
  (forall x y z, cmp x y <= 0 -> cmp y z <= 0 -> cmp x z <= 0) ->
  StronglySorted (fun a b => cmp a b <= 0) (Js.sort cmp l).
Proof.
  intros Htotal Htrans. unfold Js.sort.
  induction l as [|x l IH]; simpl.
  - constructor.
  - now apply insertBy_sorted.
Qed.

Lemma filterNull_In (l : list (option A)) (x : A) :
  In x (Js.filterNull l) <-> In (Some x) l.
Proof.
  induction l as [|[y|] l IH]; simpl.
  - tauto.
  - rewrite IH. split; intros [H|H]; auto; left; congruence.
  - rewrite IH. split; [auto|]. intros [H|H]; [discriminate|exact H].
Qed.

(** A slice that starts at or after index 0 and has a non-negative
    width is "skip [start], then take the width". *)
Lemma slice_window (l : list A) (start width : Z) :
  0 <= start -> 0 <= width ->
  Js.slice l start (start + width)
  = firstn (Z.to_nat width) (skipn (Z.to_nat start) l).
Proof.
  intros Hs Hw. unfold Js.slice.
  destruct (Z.ltb_spec start 0) as [|_]; [lia|].
  destruct (Z.ltb_spec (start + width) 0) as [|_]; [lia|].
  set (len := List.length l).
  destruct (Z.le_gt_cases start (Z.of_nat len)) as [Hin|Hout].
  - rewrite (Z.min_l start) by lia.
    destruct (Z.le_gt_cases (start + width) (Z.of_nat len)) as [He|He].
    + rewrite Z.min_l by lia. f_equal. lia.
    + rewrite Z.min_r by lia.
      rewrite !firstn_all2; trivial; rewrite length_skipn; fold len; lia.
  - rewrite (Z.min_r start) by lia.
    rewrite !skipn_all2 by (fold len; lia).
    now rewrite !firstn_nil.
Qed.

(** Cutting a list into consecutive windows of [n] elements and gluing
    the windows back gives the list, as soon as the windows reach its end. *)
Lemma windows_concat (n : nat) (count : nat) (l : list A) :
  (List.length l <= count * n)%nat ->
  List.concat (map (fun i => firstn n (skipn (i * n) l)) (seq 0 count)) = l.
Proof.
  revert l. induction count as [|count IH]; intros l Hlen.
  - simpl in *. destruct l; [reflexivity | simpl in Hlen; lia].
  - rewrite <- cons_seq, <- seq_shift. cbn [map List.concat].
    rewrite map_map. cbn [Nat.mul skipn].
    transitivity (firstn n l ++ skipn n l)%list; [|apply firstn_skipn].
    f_equal. rewrite <- (IH (skipn n l)) at 1.
    + f_equal. apply map_ext. intros i.
      rewrite skipn_skipn. do 2 f_equal. lia.
    + rewrite length_skipn. simpl in Hlen. lia.
Qed.

Lemma sumOf_shift (f : A -> Z) (l : list A) (acc : Z) :
  fold_left (fun sum x => sum + f x) l acc
  = acc + fold_left (fun sum x => sum + f x) l 0.
Proof.
  revert acc. induction l as [|x l IH]; intros acc; simpl.
  - lia.
  - rewrite (IH (acc + f x)), (IH (f x)). lia.
Qed.

Lemma sumOf_cons (f : A -> Z) (x : A) (l : list A) :
  Js.sumOf f (x :: l) = f x + Js.sumOf f l.
Proof.
  unfold Js.sumOf. simpl. rewrite sumOf_shift. lia.
Qed.

Lemma filter_split_length (p q : A -> bool) (l : list A) :
  (forall x, q x = negb (p x)) ->
  (List.length (filter p l) + List.length (filter q l))%nat = List.length l.
Proof.
  intros Hq. induction l as [|x l IH]; simpl.
  - reflexivity.
  - rewrite Hq. destruct (p x); simpl; lia.
Qed.

End ListFacts.

(** ** The Listing Engine, step by step *)

Section ListingFacts.

Variable rt : Runtime.
Variable fs : FileSystem.

(** A listing that returns went through every gate, and its result is
    built from the sorted filtered entries. *)
Lemma listDirectory_Ok_inv now dirPath page limit includeHidden sortBy sortOrder r :
  DirectoryService.listDirectory rt fs now dirPath page limit
                                 includeHidden sortBy sortOrder = Ok r ->
  DirectoryService.validatePath rt fs dirPath = Ok tt
  /\ (exists pathStats fileNames,
        stat fs (resolve rt dirPath) = inl pathStats
        /\ Stats.isDirectory pathStats = true
        /\ readdir fs (resolve rt dirPath) = inl fileNames)
  /\ r = DirectoryService.buildResponse rt now (resolve rt dirPath)
           (sortedEntries rt fs dirPath includeHidden sortBy sortOrder)
           page limit.
Proof.
  unfold DirectoryService.listDirectory, sortedEntries, filteredEntries.
  destruct (DirectoryService.validatePath rt fs dirPath) as [[]|e];
    [|discriminate]. cbn [bind].
  destruct (stat fs (resolve rt dirPath)) as [pathStats|code];
    [|discriminate]. cbn [awaitFs bind].
  destruct (Stats.isDirectory pathStats) eqn:Hdir; [|discriminate].
  cbn [negb].
  destruct (readdir fs (resolve rt dirPath)) as [fileNames|code];
    [|discriminate]. cbn [awaitFs bind].
  intros [= <-]. repeat split. now exists pathStats, fileNames.
Qed.

(** Conversely the gates are all a listing needs: whatever the children
    are, it returns. *)
Lemma listDirectory_returns now dirPath page limit includeHidden sortBy sortOrder
      pathStats fileNames :
  DirectoryService.validatePath rt fs dirPath = Ok tt ->
  stat fs (resolve rt dirPath) = inl pathStats ->
  Stats.isDirectory pathStats = true ->
  readdir fs (resolve rt dirPath) = inl fileNames ->
  DirectoryService.listDirectory rt fs now dirPath page limit
                                 includeHidden sortBy sortOrder
  = Ok (DirectoryService.buildResponse rt now (resolve rt dirPath)
          (sortedEntries rt fs dirPath includeHidden sortBy sortOrder)
          page limit).
Proof.
  intros Hv Hs Hd Hr.
  unfold DirectoryService.listDirectory, sortedEntries, filteredEntries.
  rewrite Hv, Hs, Hr. cbn [awaitFs bind]. now rewrite Hd.
Qed.

(** Whether a listing returns does not depend on the page, the page
    size or the clock. *)
Lemma listDirectory_any_page now dirPath page limit includeHidden sortBy sortOrder r
      now' page' limit' :
  DirectoryService.listDirectory rt fs now dirPath page limit
                                 includeHidden sortBy sortOrder = Ok r ->
  DirectoryService.listDirectory rt fs now' dirPath page' limit'
                                 includeHidden sortBy sortOrder
  = Ok (DirectoryService.buildResponse rt now' (resolve rt dirPath)
          (sortedEntries rt fs dirPath includeHidden sortBy sortOrder)
          page' limit').
Proof.
  intros H. apply listDirectory_Ok_inv in H.
  destruct H as (Hv & (pathStats & fileNames & Hs & Hd & Hr) & _).
  now apply listDirectory_returns with pathStats fileNames.
Qed.

(** The guard fails in one of four ways or passes. *)
Lemma validatePath_cases dirPath :
  DirectoryService.validatePath rt fs dirPath = Ok tt
  \/ exists k, DirectoryService.validatePath rt fs dirPath = Err (guardError k).
Proof.
  unfold DirectoryService.validatePath.
  destruct (_ || _).
  - right. now exists InvalidInput.
  - destruct (Js.includes _ _).
    + right. now exists PathTraversal.
    + destruct (existsb _ _).
      * right. now exists AccessDenied.
      * destruct (access _ _ _); [now left|]. right. now exists NotFound.
Qed.

End ListingFacts.

(** ** The Path Guard *)

Section PathGuard.

Variable rt : Runtime.
Variable fs : FileSystem.

(** C1, as amended.  A raw path whose normalized form contains a
    parent-directory traversal segment never validates: a non-empty raw
    path of at most 4096 characters fails with PathTraversal, an empty or
    longer one fails with InvalidInput (the length check comes first); and
    a listing of that path fails with the same error, whatever the disk
    holds, so it never enumerates. *)
Theorem traversal_never_enumerated (sep : ascii -> bool) (raw : string) :
  hasTraversalSegment sep (normalize rt raw) ->
  let failure :=
    if (raw =? "")%string
       || (DirectoryService.MAX_PATH_LENGTH <? Z.of_nat (String.length raw))
    then InvalidInput else PathTraversal in
  DirectoryService.validatePath rt fs raw = Err (guardError failure)
  /\ forall now page limit includeHidden sortBy sortOrder,
      DirectoryService.listDirectory rt fs now raw page limit
                                     includeHidden sortBy sortOrder
      = Err (guardError failure).
Proof.
  intros Hseg failure.
  assert (Hv : DirectoryService.validatePath rt fs raw = Err (guardError failure)).
  { unfold DirectoryService.validatePath, failure.
    destruct (_ || _); [reflexivity|].
    now rewrite (includes_traversal_segment sep _ Hseg). }
  split; [exact Hv|]. intros.
  unfold DirectoryService.listDirectory. now rewrite Hv.
Qed.

End PathGuard.

Lemma traversal_never_enumerated_witness :
  hasTraversalSegment Posix.isSlash (normalize Sample.rt "a/../../etc")
  /\ DirectoryService.validatePath Sample.rt Sample.disk "a/../../etc"
     = Err (guardError PathTraversal)
  /\ DirectoryService.listDirectory Sample.rt Sample.disk 0 "a/../../etc"
                                    1 100 false ByName Asc
     = Err (guardError PathTraversal).
Proof.
  assert (H : hasTraversalSegment Posix.isSlash (normalize Sample.rt "a/../../etc"))
    by (vm_compute; auto).
  split; [exact H|].
  destruct (traversal_never_enumerated Sample.rt Sample.disk Posix.isSlash
              "a/../../etc" H) as [Hv Hl].
  split; [exact Hv | apply Hl].
Defined.

(** C1, as stated, fails on a path that is too long: its normalized form
    keeps the leading [..] segment, and the guard answers InvalidInput, not
    PathTraversal. *)
Lemma long_traversal_is_invalid_input :
  hasTraversalSegment Posix.isSlash (normalize Sample.rt Sample.longTraversal)
  /\ DirectoryService.validatePath Sample.rt Sample.disk Sample.longTraversal
     = Err (guardError InvalidInput)
  /\ DirectoryService.validatePath Sample.rt Sample.disk Sample.longTraversal
     <> Err (guardError PathTraversal).
Proof.
  split; [|split].
  - vm_compute. left. reflexivity.
  - vm_compute. reflexivity.
  - vm_compute. discriminate.
Qed.

(** ** The Metadata Probe *)

Section MetadataProbe.

Variable rt : Runtime.
Variable fs : FileSystem.

(** C7.  When the Path Guard fails with NotFound, the probe returns the
    descriptor of an absent path (exists, isDirectory and the three
    permission flags false, both totals 0, the three timestamps empty)
    instead of an error; when the guard fails with InvalidInput,
    PathTraversal or AccessDenied, the probe fails with that same error. *)
Theorem probe_swallows_only_not_found (raw : string) (k : GuardFailure) :
  DirectoryService.validatePath rt fs raw = Err (guardError k) ->
  DirectoryService.getDirectoryMetadata rt fs raw
  = match k with
    | NotFound =>
        Ok (DirectoryMetadata.mk (resolve rt raw) false false
                                 (AccessFlags.mk false false false)
                                 0 0 "" "" "")
    | InvalidInput | PathTraversal | AccessDenied => Err (guardError k)
    end.
Proof.
  intros Hv.
  unfold DirectoryService.getDirectoryMetadata, DirectoryService.probe.
  rewrite Hv. now destruct k.
Qed.


End MetadataProbe.

Lemma probe_swallows_only_not_found_witness :
  DirectoryService.validatePath Sample.rt Sample.disk "/srv/missing"
  = Err (guardError NotFound)
  /\ DirectoryService.getDirectoryMetadata Sample.rt Sample.disk "/srv/missing"
     = Ok (DirectoryMetadata.mk "/srv/missing" false false
                                (AccessFlags.mk false false false) 0 0 "" "" "")
  /\ DirectoryService.getDirectoryMetadata Sample.rt Sample.disk "/etc/passwd"
     = Err (guardError AccessDenied)
  /\ DirectoryService.getDirectoryMetadata Sample.rt Sample.disk "../srv"
     = Err (guardError PathTraversal)
  /\ DirectoryService.getDirectoryMetadata Sample.rt Sample.disk ""
     = Err (guardError InvalidInput).
Proof.
  split; [reflexivity|]. split; [|split; [|split]].
  - apply (probe_swallows_only_not_found Sample.rt Sample.disk
             "/srv/missing" NotFound). reflexivity.
  - apply (probe_swallows_only_not_found Sample.rt Sample.disk
             "/etc/passwd" AccessDenied). reflexivity.
  - apply (probe_swallows_only_not_found Sample.rt Sample.disk
             "../srv" PathTraversal). reflexivity.
  - apply (probe_swallows_only_not_found Sample.rt Sample.disk
             "" InvalidInput). reflexivity.
Defined.


(** ** The Listing Engine: entries *)

Section Entries.

Variable rt : Runtime.
Variable fs : FileSystem.

Lemma validDirectory_returns now dirPath page limit includeHidden sortBy sortOrder :
  validDirectory rt fs dirPath ->
  DirectoryService.listDirectory rt fs now dirPath page limit
                                 includeHidden sortBy sortOrder
  = Ok (DirectoryService.buildResponse rt now (resolve rt dirPath)
          (sortedEntries rt fs dirPath includeHidden sortBy sortOrder)
          page limit).
Proof.
  intros (Hv & pathStats & fileNames & Hs & Hd & Hr).
  now apply listDirectory_returns with pathStats fileNames.
Qed.

(** What one child resolves to, by the outcome of its stat. *)
Lemma resolveEntry_stat_ok dir includeHidden fileName stats :
  stat fs (join rt dir fileName) = inl stats ->
  exists item,
    DirectoryService.resolveEntry rt fs dir includeHidden fileName
    = (if negb includeHidden && hiddenName rt fileName then None else Some item)
    /\ FileInfo.name item = fileName
    /\ FileInfo.path item = join rt dir fileName
    /\ FileInfo.isHidden item = hiddenName rt fileName
    /\ Permissions.readable (FileInfo.permissions item)
       = access fs (join rt dir fileName) R_OK
    /\ Permissions.writable (FileInfo.permissions item)
       = access fs (join rt dir fileName) W_OK
    /\ Permissions.executable (FileInfo.permissions item)
       = access fs (join rt dir fileName) X_OK.
Proof.
  intros Hs.
  unfold DirectoryService.resolveEntry, DirectoryService.createFileInfo.
  rewrite Hs. cbn [awaitFs bind FileInfo.isHidden].
  eexists. split; [reflexivity|]. cbn [FileInfo.name FileInfo.path
    FileInfo.isHidden FileInfo.permissions].
  repeat (split; [reflexivity|]).
  unfold DirectoryService.getFilePermissions.
  destruct (isWindows rt), (Stats.uid stats), (Stats.gid stats);
    cbn; auto.
Qed.

Lemma resolveEntry_stat_fails dir includeHidden fileName code :
  stat fs (join rt dir fileName) = inr code ->
  DirectoryService.resolveEntry rt fs dir includeHidden fileName = None.
Proof.
  intros Hs.
  unfold DirectoryService.resolveEntry, DirectoryService.createFileInfo.
  now rewrite Hs.
Qed.

(** Every collected entry comes from a child whose stat resolved, and its
    permission flags are the outcomes of the three probes. *)
Lemma collectItems_In dir includeHidden fileNames item :
  In item (DirectoryService.collectItems rt fs dir includeHidden fileNames) ->
  exists fileName stats,
    In fileName fileNames
    /\ stat fs (join rt dir fileName) = inl stats
    /\ FileInfo.name item = fileName
    /\ FileInfo.path item = join rt dir fileName
    /\ (includeHidden || negb (FileInfo.isHidden item)) = true
    /\ Permissions.readable (FileInfo.permissions item)
       = access fs (FileInfo.path item) R_OK
    /\ Permissions.writable (FileInfo.permissions item)
       = access fs (FileInfo.path item) W_OK
    /\ Permissions.executable (FileInfo.permissions item)
       = access fs (FileInfo.path item) X_OK.
Proof.
  unfold DirectoryService.collectItems. rewrite filterNull_In, in_map_iff.
  intros (fileName & Hres & Hin).
  destruct (stat fs (join rt dir fileName)) as [stats|code] eqn:Hs.
  - destruct (resolveEntry_stat_ok dir includeHidden fileName stats Hs)
      as (item' & Hres' & Hn & Hp & Hh & Hr & Hw & Hx).
    rewrite Hres' in Hres.
    destruct (negb includeHidden && hiddenName rt fileName) eqn:Hf;
      [discriminate|]. injection Hres as Heq. subst item'.
    exists fileName, stats.
    assert (Hkeep : (includeHidden || negb (FileInfo.isHidden item)) = true).
    { rewrite Hh. destruct includeHidden; [reflexivity|].
      cbn [negb andb orb] in *. now rewrite Hf. }
    rewrite Hp. auto 10.
  - now rewrite (resolveEntry_stat_fails _ _ _ _ Hs) in Hres.
Qed.

(** The children whose stat fails contribute nothing. *)
Lemma collectItems_resolvable dir includeHidden fileNames :
  DirectoryService.collectItems rt fs dir includeHidden
                                (resolvable rt fs dir fileNames)
  = DirectoryService.collectItems rt fs dir includeHidden fileNames.
Proof.
  unfold DirectoryService.collectItems, resolvable.
  induction fileNames as [|fileName fileNames IH]; simpl; [reflexivity|].
  destruct (stat fs (join rt dir fileName)) as [stats|code] eqn:Hs.
  - simpl. now rewrite IH.
  - now rewrite (resolveEntry_stat_fails _ _ _ _ Hs).
Qed.

End Entries.

(** ** The Listing Engine: aggregates and pages *)

Section Arithmetic.

(** For a positive page size [Math.ceil(total / limit)] is the least
    number of pages that hold [total] entries. *)
Lemma ceilDiv_pages (total limit : Z) :
  0 <= total -> 1 <= limit ->
  exists tp,
    Js.ceilDiv total limit = Js.Num tp
    /\ 0 <= tp
    /\ (tp - 1) * limit < total <= tp * limit.
Proof.
  intros Ht Hl. unfold Js.ceilDiv.
  destruct (Z.eqb_spec limit 0) as [|_]; [lia|].
  exists (- (- total / limit)). split; [reflexivity|].
  assert (Hdm := Z.div_mod (- total) limit ltac:(lia)).
  assert (Hb := Z.mod_pos_bound (- total) limit ltac:(lia)).
  nia.
Qed.

Lemma fileBytes_sumOf (l : list FileInfo.t) :
  Js.sumOf FileInfo.size
           (filter (fun item => isFileType (FileInfo.type item)) l)
  = fileBytes l.
Proof.
  induction l as [|item l IH]; [reflexivity|]. simpl.
  destruct (FileInfo.type item); simpl.
  - now rewrite sumOf_cons, IH.
  - exact IH.
Qed.

Lemma fileBytes_perm (l l' : list FileInfo.t) :
  Permutation l l' -> fileBytes l = fileBytes l'.
Proof.
  induction 1 as [|x l l' _ IH|x y l|l l' l'' _ IH1 _ IH2]; simpl.
  - reflexivity.
  - now rewrite IH.
  - destruct (FileInfo.type x), (FileInfo.type y); lia.
  - now rewrite IH1.
Qed.

Lemma Forall2_map_r {A B : Type} (R : A -> B -> Prop) (f : A -> B) (l : list A) :
  (forall x, In x l -> R x (f x)) -> Forall2 R l (map f l).
Proof.
  induction l as [|x l IH]; intros H; simpl; constructor.
  - apply H. now left.
  - apply IH. intros y Hy. apply H. now right.
Qed.

End Arithmetic.

Section Pages.

Variable rt : Runtime.
Variable fs : FileSystem.

(** C4.  In every listing result the aggregates are those of the whole
    filtered entry set, whatever page was asked for: the file count plus
    the directory count is the number of filtered entries (the [total] of
    the pagination), and the total file bytes are the sum of the sizes of
    the filtered entries whose kind is file. *)
Theorem aggregates_cover_filtered_set
        now dirPath page limit includeHidden sortBy sortOrder r :
  DirectoryService.listDirectory rt fs now dirPath page limit
                                 includeHidden sortBy sortOrder = Ok r ->
  let entries := filteredEntries rt fs dirPath includeHidden in
  let summary := DirectoryListingResponse.metadata r in
  ListingMetadata.totalFiles summary + ListingMetadata.totalDirectories summary
  = Z.of_nat (List.length entries)
  /\ Pagination.total (DirectoryListingResponse.pagination r)
     = Z.of_nat (List.length entries)
  /\ ListingMetadata.totalFiles summary
     = Z.of_nat (List.length
                   (filter (fun item => isFileType (FileInfo.type item)) entries))
  /\ ListingMetadata.totalSize summary = fileBytes entries.
Proof.
  intros H entries summary. apply listDirectory_Ok_inv in H.
  destruct H as (_ & _ & ->). subst summary.
  unfold sortedEntries, DirectoryService.sortItems. fold entries.
  set (cmp := DirectoryService.compareItems rt sortBy sortOrder).
  assert (Hperm := sort_perm cmp entries).
  cbn [DirectoryService.buildResponse DirectoryListingResponse.metadata
       DirectoryListingResponse.pagination Pagination.total
       ListingMetadata.totalFiles ListingMetadata.totalDirectories
       ListingMetadata.totalSize].
  repeat split.
  - rewrite <- Nat2Z.inj_add, filter_split_length.
    + now rewrite sort_length.
    + intros x. now destruct (FileInfo.type x).
  - now rewrite sort_length.
  - f_equal. apply Permutation_length.
    clear -Hperm. induction Hperm; simpl.
    + reflexivity.
    + destruct (isFileType _); auto.
    + destruct (isFileType (FileInfo.type x)), (isFileType (FileInfo.type y));
        auto using perm_swap.
    + etransitivity; eassumption.
  - rewrite fileBytes_sumOf. now apply fileBytes_perm.
Qed.

End Pages.

Lemma aggregates_cover_filtered_set_witness :
  exists r,
    DirectoryService.listDirectory Sample.rt Sample.disk 0 "/srv/data" 1 2
                                   false BySize Asc = Ok r
    /\ map FileInfo.name (DirectoryListingResponse.items r) = ["docs"; "a.txt"]
    /\ ListingMetadata.totalFiles (DirectoryListingResponse.metadata r)
       + ListingMetadata.totalDirectories (DirectoryListingResponse.metadata r)
       = 4
    /\ Pagination.total (DirectoryListingResponse.pagination r) = 4
    /\ ListingMetadata.totalSize (DirectoryListingResponse.metadata r) = 22.
Proof.
  eexists. split; [reflexivity|]. split; [reflexivity|].
  destruct (aggregates_cover_filtered_set
              Sample.rt Sample.disk 0 "/srv/data" 1 2 false BySize Asc _ eq_refl)
    as (Hsum & Htotal & _ & Hsize).
  split; [exact Hsum|]. split; [exact Htotal | exact Hsize].
Defined.

Section Slices.

Variable rt : Runtime.
Variable fs : FileSystem.

Lemma page_items (all : list FileInfo.t) now dir (page limit : Z) :
  1 <= page -> 1 <= limit ->
  DirectoryListingResponse.items
    (DirectoryService.buildResponse rt now dir all page limit)
  = firstn (Z.to_nat limit) (skipn (Z.to_nat ((page - 1) * limit)) all).
Proof.
  intros Hp Hl. cbn [DirectoryService.buildResponse DirectoryListingResponse.items].
  apply slice_window; nia.
Qed.

(** The general part of C5. *)
Lemma page_is_window now dirPath page limit includeHidden sortBy sortOrder :
  validDirectory rt fs dirPath ->
  1 <= page -> 1 <= limit ->
  let all := sortedEntries rt fs dirPath includeHidden sortBy sortOrder in
  let total := Z.of_nat (List.length all) in
  exists r totalPages,
    DirectoryService.listDirectory rt fs now dirPath page limit
                                   includeHidden sortBy sortOrder = Ok r
    /\ DirectoryListingResponse.items r
       = firstn (Z.to_nat limit) (skipn (Z.to_nat ((page - 1) * limit)) all)
    /\ (total <= (page - 1) * limit -> DirectoryListingResponse.items r = [])
    /\ Pagination.totalPages (DirectoryListingResponse.pagination r)
       = Js.Num totalPages
    /\ (totalPages - 1) * limit < total <= totalPages * limit
    /\ (total = 0 -> totalPages = 0)
    /\ (Pagination.hasNext (DirectoryListingResponse.pagination r) = true
        <-> page < totalPages)
    /\ (Pagination.hasPrevious (DirectoryListingResponse.pagination r) = true
        <-> 1 < page).
Proof.
  intros Hvalid Hp Hl all total.
  destruct (ceilDiv_pages total limit) as (tp & Hceil & Htp0 & Htp);
    [subst total; lia | exact Hl |].
  eexists. exists tp.
  split; [now apply validDirectory_returns|].
  fold all. rewrite page_items by assumption.
  cbn [DirectoryService.buildResponse DirectoryListingResponse.pagination
       Pagination.totalPages Pagination.hasNext Pagination.hasPrevious].
  fold total. rewrite Hceil. cbn [Js.ltNumber].
  split; [reflexivity|]. split.
  { intros Hbeyond. rewrite skipn_all2; [apply firstn_nil|].
    subst total. lia. }
  split; [reflexivity|]. split; [exact Htp|]. split; [nia|].
  split; [apply Z.ltb_lt | apply Z.ltb_lt].
Qed.

(** C2.  For a valid directory and a page size of at least 1, every page
    call returns, all report the same number [totalPages] of pages, and
    the item lists of the pages 1 to [totalPages], one after the other,
    are the full filtered, sorted entry set: the same list, so every
    entry occurs once, in place.  [clock p] is the instant of the call for
    page [p]. *)
Theorem pages_partition_entries
        (clock : nat -> Z) dirPath limit includeHidden sortBy sortOrder :
  validDirectory rt fs dirPath ->
  1 <= limit ->
  let all := sortedEntries rt fs dirPath includeHidden sortBy sortOrder in
  exists (totalPages : nat) (pages : list (list FileInfo.t)),
    Forall2
      (fun p items =>
         exists r,
           DirectoryService.listDirectory rt fs (clock p) dirPath (Z.of_nat p)
                                          limit includeHidden sortBy sortOrder
           = Ok r
           /\ Pagination.totalPages (DirectoryListingResponse.pagination r)
              = Js.Num (Z.of_nat totalPages)
           /\ DirectoryListingResponse.items r = items)
      (seq 1 totalPages) pages
    /\ List.concat pages = all
    /\ Permutation (List.concat pages)
                   (filteredEntries rt fs dirPath includeHidden).
Proof.
  intros Hvalid Hl all.
  set (total := Z.of_nat (List.length all)).
  destruct (ceilDiv_pages total limit) as (tp & Hceil & Htp0 & Htp);
    [subst total; lia | exact Hl |].
  set (n := Z.to_nat limit).
  set (window := fun p : nat => firstn n (skipn ((p - 1) * n) all)).
  assert (Hconcat : List.concat (map window (seq 1 (Z.to_nat tp))) = all).
  { rewrite <- seq_shift, map_map. unfold window.
    etransitivity; [|apply (windows_concat n (Z.to_nat tp) all)].
    - f_equal. apply map_ext. intros i. do 3 f_equal. lia.
    - subst n total. nia. }
  exists (Z.to_nat tp), (map window (seq 1 (Z.to_nat tp))).
  split; [|split].
  - apply Forall2_map_r. intros p Hin. apply in_seq in Hin.
    eexists. split; [now apply validDirectory_returns|].
    fold all. split.
    + cbn [DirectoryService.buildResponse DirectoryListingResponse.pagination
           Pagination.totalPages].
      fold total. rewrite Hceil. f_equal. lia.
    + rewrite page_items by lia. unfold window. fold n. do 2 f_equal.
      subst n. nia.
  - exact Hconcat.
  - rewrite Hconcat. apply sort_perm.
Qed.

End Slices.

Lemma sample_abc_valid : validDirectory Sample.rt Sample.disk "/srv/abc".
Proof.
  split; [reflexivity|].
  exists (Sample.dirStats 1700000000000), ["c"; "a"; "b"].
  split; [reflexivity|]. split; reflexivity.
Defined.

Lemma sample_data_valid : validDirectory Sample.rt Sample.disk "/srv/data".
Proof.
  split; [reflexivity|].
  exists (Sample.dirStats 1700000000000),
         ["b.txt"; "a.txt"; ".hidden"; "gone.tmp"; "locked.bin"; "docs"].
  split; [reflexivity|]. split; reflexivity.
Defined.

Lemma pages_partition_entries_witness :
  validDirectory Sample.rt Sample.disk "/srv/abc"
  /\ map FileInfo.name
         (sortedEntries Sample.rt Sample.disk "/srv/abc" false ByName Asc)
     = ["a"; "b"; "c"]
  /\ exists (totalPages : nat) (pages : list (list FileInfo.t)),
      Forall2
        (fun p items =>
           exists r,
             DirectoryService.listDirectory Sample.rt Sample.disk
               (1700000000000 + Z.of_nat p) "/srv/abc" (Z.of_nat p) 2
               false ByName Asc = Ok r
             /\ Pagination.totalPages (DirectoryListingResponse.pagination r)
                = Js.Num (Z.of_nat totalPages)
             /\ DirectoryListingResponse.items r = items)
        (seq 1 totalPages) pages
      /\ List.concat pages
         = sortedEntries Sample.rt Sample.disk "/srv/abc" false ByName Asc.
Proof.
  split; [exact sample_abc_valid|]. split; [reflexivity|].
  destruct (pages_partition_entries Sample.rt Sample.disk
              (fun p => 1700000000000 + Z.of_nat p) "/srv/abc" 2
              false ByName Asc sample_abc_valid ltac:(lia))
    as (totalPages & pages & Hpages & Hconcat & _).
  exists totalPages, pages. split; [exact Hpages | exact Hconcat].
Defined.

(** C5.  For a valid directory, a page of at least 1 and a page size of at
    least 1, the listing returns; its items are the slice
    [(page-1)*limit, page*limit) of the sorted filtered set; a page that
    starts at or beyond the end is empty, not an error; [totalPages] is
    the ceiling of total/limit, that is the integer with
    (totalPages-1)*limit < total <= totalPages*limit, which is 0 when total
    is 0; [hasNext] holds iff page < totalPages and [hasPrevious] iff
    page > 1.  In particular on a sorted set [[a; b; c]] with limit 1 and
    page 2 the items are [[b]], both flags hold and totalPages is 3. *)
Theorem page_is_slice_of_sorted_set
        rt fs now dirPath page limit includeHidden sortBy sortOrder :
  validDirectory rt fs dirPath ->
  1 <= page -> 1 <= limit ->
  let all := sortedEntries rt fs dirPath includeHidden sortBy sortOrder in
  let total := Z.of_nat (List.length all) in
  exists r totalPages,
    DirectoryService.listDirectory rt fs now dirPath page limit
                                   includeHidden sortBy sortOrder = Ok r
    /\ DirectoryListingResponse.items r
       = firstn (Z.to_nat limit) (skipn (Z.to_nat ((page - 1) * limit)) all)
    /\ (total <= (page - 1) * limit -> DirectoryListingResponse.items r = [])
    /\ Pagination.totalPages (DirectoryListingResponse.pagination r)
       = Js.Num totalPages
    /\ (totalPages - 1) * limit < total <= totalPages * limit
    /\ (total = 0 -> totalPages = 0)
    /\ (Pagination.hasNext (DirectoryListingResponse.pagination r) = true
        <-> page < totalPages)
    /\ (Pagination.hasPrevious (DirectoryListingResponse.pagination r) = true
        <-> 1 < page)
    /\ (forall a b c,
           all = [a; b; c] -> limit = 1 -> page = 2 ->
           DirectoryListingResponse.items r = [b]
           /\ Pagination.hasNext (DirectoryListingResponse.pagination r) = true
           /\ Pagination.hasPrevious (DirectoryListingResponse.pagination r) = true
           /\ totalPages = 3).
Proof.
  intros Hvalid Hp Hl all total.
  destruct (page_is_window rt fs now dirPath page limit includeHidden
              sortBy sortOrder Hvalid Hp Hl)
    as (r & tp & Hr & Hitems & Hbeyond & Htp & Hceil & Hzero & Hnext & Hprev).
  fold all in Hitems, Hbeyond, Hceil, Hzero. fold total in Hbeyond, Hceil, Hzero.
  exists r, tp. repeat (split; [assumption|]).
  intros a b c Hall -> ->.
  assert (Htotal : total = 3) by (subst total; now rewrite Hall).
  assert (tp = 3) by lia.
  split; [now rewrite Hitems, Hall|].
  split; [apply Hnext; lia|]. split; [apply Hprev; lia | assumption].
Qed.

Lemma page_is_slice_of_sorted_set_witness :
  validDirectory Sample.rt Sample.disk "/srv/abc"
  /\ map FileInfo.name
         (sortedEntries Sample.rt Sample.disk "/srv/abc" false ByName Asc)
     = ["a"; "b"; "c"]
  /\ exists r,
      DirectoryService.listDirectory Sample.rt Sample.disk 0 "/srv/abc" 2 1
                                     false ByName Asc = Ok r
      /\ map FileInfo.name (DirectoryListingResponse.items r) = ["b"]
      /\ Pagination.hasNext (DirectoryListingResponse.pagination r) = true
      /\ Pagination.hasPrevious (DirectoryListingResponse.pagination r) = true
      /\ Pagination.totalPages (DirectoryListingResponse.pagination r) = Js.Num 3.
Proof.
  split; [exact sample_abc_valid|]. split; [reflexivity|].
  destruct (page_is_slice_of_sorted_set Sample.rt Sample.disk 0 "/srv/abc" 2 1
              false ByName Asc sample_abc_valid ltac:(lia) ltac:(lia))
    as (r & tp & Hr & _ & _ & Htp & _ & _ & _ & _ & Hscenario).
  destruct (Hscenario _ _ _ eq_refl eq_refl eq_refl) as (Hitems & Hn & Hp & ->).
  exists r. split; [exact Hr|]. split; [now rewrite Hitems|].
  split; [exact Hn|]. split; [exact Hp | exact Htp].
Defined.

(** The sorted entry set is in order, for instance by size. *)
Lemma sortedEntries_by_size rt fs dirPath includeHidden :
  StronglySorted (fun a b => FileInfo.size a <= FileInfo.size b)
                 (sortedEntries rt fs dirPath includeHidden BySize Asc)
  /\ StronglySorted (fun a b => FileInfo.size b <= FileInfo.size a)
                    (sortedEntries rt fs dirPath includeHidden BySize Desc).
Proof.
  unfold sortedEntries, DirectoryService.sortItems. split.
  - eapply StronglySorted_impl_cmp; [|apply sort_sorted].
    + intros a b. cbn. lia.
    + intros a b. cbn. lia.
    + intros a b c. cbn. lia.
  - eapply StronglySorted_impl_cmp; [|apply sort_sorted].
    + intros a b. cbn. lia.
    + intros a b. cbn. lia.
    + intros a b c. cbn. lia.
Qed.

(** ** The Listing Engine: failures of one child *)

Section ChildFailures.

Variable rt : Runtime.
Variable fs : FileSystem.

Lemma sortedEntries_withoutUnresolvable dirPath includeHidden sortBy sortOrder :
  sortedEntries rt (withoutUnresolvable rt fs) dirPath includeHidden sortBy sortOrder
  = sortedEntries rt fs dirPath includeHidden sortBy sortOrder.
Proof.
  unfold sortedEntries, filteredEntries. cbn [readdir withoutUnresolvable].
  destruct (readdir fs (resolve rt dirPath)) as [fileNames|code];
    [|reflexivity].
  f_equal. apply (collectItems_resolvable rt fs).
Qed.

Lemma validDirectory_withoutUnresolvable dirPath :
  validDirectory rt fs dirPath ->
  validDirectory rt (withoutUnresolvable rt fs) dirPath.
Proof.
  intros (Hv & pathStats & fileNames & Hs & Hd & Hr).
  split; [exact Hv|].
  exists pathStats, (resolvable rt fs (resolve rt dirPath) fileNames).
  split; [exact Hs|]. split; [exact Hd|].
  cbn [readdir withoutUnresolvable]. now rewrite Hr.
Qed.

(** Every listed entry is a child whose stat resolved. *)
Lemma listed_entry_has_stats dirPath includeHidden sortBy sortOrder item :
  In item (sortedEntries rt fs dirPath includeHidden sortBy sortOrder) ->
  exists stats, stat fs (FileInfo.path item) = inl stats.
Proof.
  intros Hin. unfold sortedEntries, DirectoryService.sortItems in Hin.
  apply sort_In in Hin. unfold filteredEntries in Hin.
  destruct (readdir fs (resolve rt dirPath)) as [fileNames|code];
    [|contradiction].
  apply collectItems_In in Hin.
  destruct Hin as (fileName & stats & _ & Hs & _ & Hp & _).
  exists stats. now rewrite Hp.
Qed.

(** C6.  For a valid directory the listing returns whatever happens to
    the children: a child whose metadata resolution fails (its stat
    rejects) is left out, every listed entry is a child whose stat
    resolved, and the result is the very result the listing gives on the
    disk without the failing children, so that nothing in it tells how
    many were left out. *)
Theorem unresolvable_child_is_dropped_silently
        now dirPath page limit includeHidden sortBy sortOrder :
  validDirectory rt fs dirPath ->
  exists r,
    DirectoryService.listDirectory rt fs now dirPath page limit
                                   includeHidden sortBy sortOrder = Ok r
    /\ DirectoryService.listDirectory rt (withoutUnresolvable rt fs) now
         dirPath page limit includeHidden sortBy sortOrder = Ok r
    /\ (forall item,
           In item (sortedEntries rt fs dirPath includeHidden sortBy sortOrder) ->
           exists stats, stat fs (FileInfo.path item) = inl stats)
    /\ (forall fileNames fileName code,
           readdir fs (resolve rt dirPath) = inl fileNames ->
           In fileName fileNames ->
           stat fs (join rt (resolve rt dirPath) fileName) = inr code ->
           forall item,
             In item (sortedEntries rt fs dirPath includeHidden sortBy sortOrder) ->
             FileInfo.path item <> join rt (resolve rt dirPath) fileName).
Proof.
  intros Hvalid.
  assert (Hlisted := listed_entry_has_stats dirPath includeHidden sortBy sortOrder).
  eexists. split; [now apply validDirectory_returns|].
  split; [|split].
  - rewrite (validDirectory_returns rt (withoutUnresolvable rt fs))
      by now apply validDirectory_withoutUnresolvable.
    now rewrite sortedEntries_withoutUnresolvable.
  - exact Hlisted.
  - intros fileNames fileName code _ _ Hfail item Hin Hpath.
    destruct (Hlisted item Hin) as (stats & Hs). congruence.
Qed.

(** C9.  For a valid directory, a child whose stat resolves and that the
    hidden-file filter keeps is in the sorted filtered set, with each
    permission flag equal to the outcome of its access probe, whatever
    the three probes answer; the listing returns; every listed entry has
    flags equal to the outcomes of its probes; and an entry is listed only
    if its stat resolved. *)
Theorem failed_probe_only_clears_flag
        now dirPath page limit includeHidden sortBy sortOrder
        fileNames fileName stats :
  validDirectory rt fs dirPath ->
  readdir fs (resolve rt dirPath) = inl fileNames ->
  In fileName fileNames ->
  stat fs (join rt (resolve rt dirPath) fileName) = inl stats ->
  (includeHidden || negb (hiddenName rt fileName)) = true ->
  let all := sortedEntries rt fs dirPath includeHidden sortBy sortOrder in
  let childPath := join rt (resolve rt dirPath) fileName in
  (exists r,
      DirectoryService.listDirectory rt fs now dirPath page limit
                                     includeHidden sortBy sortOrder = Ok r
      /\ Pagination.total (DirectoryListingResponse.pagination r)
         = Z.of_nat (List.length all))
  /\ (exists item,
         In item all
         /\ FileInfo.name item = fileName
         /\ FileInfo.path item = childPath
         /\ Permissions.readable (FileInfo.permissions item)
            = access fs childPath R_OK
         /\ Permissions.writable (FileInfo.permissions item)
            = access fs childPath W_OK
         /\ Permissions.executable (FileInfo.permissions item)
            = access fs childPath X_OK)
  /\ (forall item,
         In item all ->
         Permissions.readable (FileInfo.permissions item)
         = access fs (FileInfo.path item) R_OK
         /\ Permissions.writable (FileInfo.permissions item)
            = access fs (FileInfo.path item) W_OK
         /\ Permissions.executable (FileInfo.permissions item)
            = access fs (FileInfo.path item) X_OK
         /\ exists stats', stat fs (FileInfo.path item) = inl stats').
Proof.
  intros Hvalid Hr Hin Hs Hkeep all childPath.
  split; [|split].
  - eexists. split; [now apply validDirectory_returns|]. reflexivity.
  - destruct (resolveEntry_stat_ok rt fs (resolve rt dirPath) includeHidden
                fileName stats Hs)
      as (item & Hres & Hn & Hp & _ & Hflags).
    assert (Hnot : negb includeHidden && hiddenName rt fileName = false).
    { destruct includeHidden; [reflexivity|]. cbn [negb andb orb] in *.
      now destruct (hiddenName rt fileName). }
    rewrite Hnot in Hres.
    exists item. split; [|auto].
    unfold all, sortedEntries, DirectoryService.sortItems. apply sort_In.
    unfold filteredEntries. rewrite Hr.
    unfold DirectoryService.collectItems. apply filterNull_In.
    rewrite <- Hres. now apply in_map.
  - intros item Hitem.
    unfold all, sortedEntries, DirectoryService.sortItems in Hitem.
    apply sort_In in Hitem. unfold filteredEntries in Hitem. rewrite Hr in Hitem.
    apply collectItems_In in Hitem.
    destruct Hitem
      as (name' & stats' & _ & Hs' & _ & Hp' & _ & Hread & Hwrite & Hexec).
    repeat (split; [assumption|]). exists stats'. now rewrite Hp'.
Qed.

End ChildFailures.

Lemma unresolvable_child_is_dropped_silently_witness :
  validDirectory Sample.rt Sample.disk "/srv/data"
  /\ stat Sample.disk "/srv/data/gone.tmp" = inr "ENOENT"
  /\ exists r,
      DirectoryService.listDirectory Sample.rt Sample.disk 0 "/srv/data" 1 10
                                     true ByName Asc = Ok r
      /\ map FileInfo.name (DirectoryListingResponse.items r)
         = [".hidden"; "a.txt"; "b.txt"; "docs"; "locked.bin"]
      /\ DirectoryService.listDirectory Sample.rt
           (withoutUnresolvable Sample.rt Sample.disk) 0 "/srv/data" 1 10
           true ByName Asc = Ok r.
Proof.
  split; [exact sample_data_valid|]. split; [reflexivity|].
  destruct (unresolvable_child_is_dropped_silently Sample.rt Sample.disk 0
              "/srv/data" 1 10 true ByName Asc sample_data_valid)
    as (r & Hr & Hpruned & _).
  exists r. split; [exact Hr|]. split; [|exact Hpruned].
  assert (E := Hr). vm_compute in E. injection E as <-. reflexivity.
Defined.

Lemma failed_probe_only_clears_flag_witness :
  validDirectory Sample.rt Sample.disk "/srv/data"
  /\ access Sample.disk "/srv/data/locked.bin" R_OK = false
  /\ access Sample.disk "/srv/data/locked.bin" W_OK = false
  /\ access Sample.disk "/srv/data/locked.bin" X_OK = false
  /\ (exists r,
         DirectoryService.listDirectory Sample.rt Sample.disk 0 "/srv/data" 1 10
                                        false ByName Asc = Ok r)
  /\ exists item,
      In item (sortedEntries Sample.rt Sample.disk "/srv/data" false ByName Asc)
      /\ FileInfo.name item = "locked.bin"
      /\ Permissions.readable (FileInfo.permissions item) = false
      /\ Permissions.writable (FileInfo.permissions item) = false
      /\ Permissions.executable (FileInfo.permissions item) = false.
Proof.
  split; [exact sample_data_valid|]. do 3 (split; [reflexivity|]).
  destruct (failed_probe_only_clears_flag Sample.rt Sample.disk 0 "/srv/data" 1 10
              false ByName Asc
              ["b.txt"; "a.txt"; ".hidden"; "gone.tmp"; "locked.bin"; "docs"]
              "locked.bin" (Sample.fileStats 7 1700000007000)
              sample_data_valid eq_refl
              (or_intror (or_intror (or_intror (or_intror (or_introl eq_refl)))))
              eq_refl eq_refl)
    as ((r & Hr & _) & (item & Hin & Hname & _ & Hread & Hwrite & Hexec) & _).
  split; [now exists r|].
  exists item. split; [exact Hin|]. split; [exact Hname|].
  split; [exact Hread|]. split; [exact Hwrite | exact Hexec].
Defined.

(** ** The Listing Engine: repeated calls *)

(** C8, as amended.  Two listing calls with the same parameters on the same
    disk, at the instants [now1] and [now2], both fail with the same error
    or both return, and then the two results agree on the path, the
    items, the pagination and the three aggregate totals; the scan
    timestamp of each is the instant of its call, so that the results are
    identical when the two instants are. *)
Theorem repeated_listing_differs_only_in_scan_time
        rt fs now1 now2 dirPath page limit includeHidden sortBy sortOrder :
  match DirectoryService.listDirectory rt fs now1 dirPath page limit
                                       includeHidden sortBy sortOrder,
        DirectoryService.listDirectory rt fs now2 dirPath page limit
                                       includeHidden sortBy sortOrder with
  | Ok r1, Ok r2 =>
      sameButScannedAt r1 r2
      /\ ListingMetadata.scannedAt (DirectoryListingResponse.metadata r1)
         = toISOString rt now1
      /\ ListingMetadata.scannedAt (DirectoryListingResponse.metadata r2)
         = toISOString rt now2
      /\ (now1 = now2 -> r1 = r2)
  | Err e1, Err e2 => e1 = e2
  | _, _ => False
  end.
Proof.
  destruct (DirectoryService.listDirectory rt fs now1 dirPath page limit
              includeHidden sortBy sortOrder) as [r1|e1] eqn:H1.
  - rewrite (listDirectory_any_page rt fs _ _ _ _ _ _ _ _ now2 page limit H1).
    apply listDirectory_Ok_inv in H1. destruct H1 as (_ & _ & ->).
    split; [now repeat split|]. split; [reflexivity|]. split; [reflexivity|].
    now intros ->.
  - destruct (DirectoryService.listDirectory rt fs now2 dirPath page limit
                includeHidden sortBy sortOrder) as [r2|e2] eqn:H2.
    + rewrite (listDirectory_any_page rt fs _ _ _ _ _ _ _ _ now1 page limit H2)
        in H1. discriminate.
    + unfold DirectoryService.listDirectory in H1, H2.
      destruct (DirectoryService.validatePath rt fs dirPath) as [[]|e];
        cbn [bind] in H1, H2; [|congruence].
      destruct (stat fs (resolve rt dirPath)) as [pathStats|code];
        cbn [awaitFs bind] in H1, H2; [|congruence].
      destruct (negb (Stats.isDirectory pathStats)); [congruence|].
      destruct (readdir fs (resolve rt dirPath)) as [fileNames|code];
        cbn [awaitFs bind] in H1, H2; [discriminate | congruence].
Qed.

Lemma repeated_listing_differs_only_in_scan_time_witness :
  exists r1 r2,
    DirectoryService.listDirectory Sample.rt Sample.disk 1700000000000
                                   "/srv/abc" 1 100 false ByName Asc = Ok r1
    /\ DirectoryService.listDirectory Sample.rt Sample.disk 1700000001000
                                      "/srv/abc" 1 100 false ByName Asc = Ok r2
    /\ sameButScannedAt r1 r2.
Proof.
  assert (H := repeated_listing_differs_only_in_scan_time
                 Sample.rt Sample.disk 1700000000000 1700000001000
                 "/srv/abc" 1 100 false ByName Asc).
  destruct (DirectoryService.listDirectory Sample.rt Sample.disk 1700000000000
              "/srv/abc" 1 100 false ByName Asc) as [r1|e1] eqn:E1;
    [|vm_compute in E1; discriminate].
  destruct (DirectoryService.listDirectory Sample.rt Sample.disk 1700000001000
              "/srv/abc" 1 100 false ByName Asc) as [r2|e2];
    [|contradiction].
  exists r1, r2. split; [reflexivity|]. split; [reflexivity|]. apply H.
Defined.

(** C8, as stated, fails: a second call one second after the first, on the
    same disk and with the same parameters, returns another result, with
    another [scannedAt]. *)
Lemma consecutive_listings_differ :
  exists r1 r2,
    DirectoryService.listDirectory Sample.rt Sample.disk 1700000000000
                                   "/srv/abc" 1 100 false ByName Asc = Ok r1
    /\ DirectoryService.listDirectory Sample.rt Sample.disk 1700000001000
                                      "/srv/abc" 1 100 false ByName Asc = Ok r2
    /\ ListingMetadata.scannedAt (DirectoryListingResponse.metadata r1)
       = "2023-11-14T22:13:20.000Z"
    /\ ListingMetadata.scannedAt (DirectoryListingResponse.metadata r2)
       = "2023-11-14T22:13:21.000Z"
    /\ r1 <> r2.
Proof.
  eexists. eexists. split; [reflexivity|]. split; [reflexivity|].
  split; [reflexivity|]. split; [reflexivity|].
  intros E. apply (f_equal (fun r => ListingMetadata.scannedAt
                                       (DirectoryListingResponse.metadata r))) in E.
  vm_compute in E. discriminate.
Qed.

(** ** The page size *)

(** The decimal numeral of an integer reads, digit by digit, as that
    integer. *)
Section Decimal.








End Decimal.

Section PageSize.

Variable rt : Runtime.
Variable fs : FileSystem.




End PageSize.



(* ------------------------------------------------------------------ *)
(** * Further properties of the service *)

(** ** Failures of the Listing Engine and of the Metadata Probe *)

Section Failures.

Variable rt : Runtime.
Variable fs : FileSystem.

Lemma guardError_not_a_directory (k : GuardFailure) :
  guardError k <> createError "Path is not a directory" 400.
Proof. destruct k; discriminate. Qed.

(** X1.  A listing fails only for a reason that concerns the directory
    itself: one of the four failures of the Path Guard, the refusal of a
    path that is not a directory, or the rejection of the stat or of the
    readdir of the directory.  No failure of a child ever surfaces. *)
Theorem listing_fails_only_for_the_directory
        now dirPath page limit includeHidden sortBy sortOrder error :
  DirectoryService.listDirectory rt fs now dirPath page limit
                                 includeHidden sortBy sortOrder = Err error ->
  (exists k, error = guardError k
             /\ DirectoryService.validatePath rt fs dirPath = Err (guardError k))
  \/ (error = createError "Path is not a directory" 400
      /\ exists pathStats,
          stat fs (resolve rt dirPath) = inl pathStats
          /\ Stats.isDirectory pathStats = false)
  \/ (exists text,
         error = SystemError text
         /\ (stat fs (resolve rt dirPath) = inr text
             \/ readdir fs (resolve rt dirPath) = inr text)).
Proof.
  unfold DirectoryService.listDirectory.
  destruct (validatePath_cases rt fs dirPath) as [Hv|[k Hv]]; rewrite Hv;
    cbn [bind].
  - destruct (stat fs (resolve rt dirPath)) as [pathStats|text] eqn:Hs;
      cbn [awaitFs bind].
    + destruct (Stats.isDirectory pathStats) eqn:Hd; cbn [negb].
      * destruct (readdir fs (resolve rt dirPath)) as [fileNames|text] eqn:Hr;
          cbn [awaitFs bind]; [discriminate|].
        intros [= <-]. right. right. exists text. auto.
      * intros [= <-]. right. left. split; [reflexivity|]. now exists pathStats.
    + intros [= <-]. right. right. exists text. auto.
  - intros [= <-]. left. now exists k.
Qed.

(** X2.  The listing refuses a path as "not a directory" exactly when the
    probe of the same path reports that it exists and is not a directory. *)
Theorem listing_refuses_what_the_probe_calls_a_file
        now dirPath page limit includeHidden sortBy sortOrder :
  DirectoryService.listDirectory rt fs now dirPath page limit
                                 includeHidden sortBy sortOrder
  = Err (createError "Path is not a directory" 400)
  <-> exists metadata,
      DirectoryService.getDirectoryMetadata rt fs dirPath = Ok metadata
      /\ DirectoryMetadata.exists_ metadata = true
      /\ DirectoryMetadata.isDirectory metadata = false.
Proof.
  split.
  - unfold DirectoryService.listDirectory, DirectoryService.getDirectoryMetadata,
      DirectoryService.probe.
    destruct (validatePath_cases rt fs dirPath) as [Hv|[k Hv]]; rewrite Hv;
      cbn [bind].
    + destruct (stat fs (resolve rt dirPath)) as [pathStats|text];
        cbn [awaitFs bind]; [|discriminate].
      destruct (Stats.isDirectory pathStats) eqn:Hd; cbn [negb].
      * destruct (readdir fs (resolve rt dirPath)); discriminate.
      * intros _. eexists. split; [reflexivity|]. cbn. auto.
    + intros [= H]. now apply guardError_not_a_directory in H.
  - intros (metadata & Hm & He & Hd).
    unfold DirectoryService.getDirectoryMetadata, DirectoryService.probe in Hm.
    unfold DirectoryService.listDirectory.
    destruct (validatePath_cases rt fs dirPath) as [Hv|[k Hv]]; rewrite Hv in *;
      cbn [bind] in *.
    + destruct (stat fs (resolve rt dirPath)) as [pathStats|text];
        cbn [awaitFs bind statusCode] in *; [|discriminate].
      destruct (Stats.isDirectory pathStats) eqn:Hdir.
      * destruct (readdir fs (resolve rt dirPath));
          injection Hm as <-; cbn in Hd; congruence.
      * reflexivity.
    + destruct k; cbn in Hm; try discriminate.
      injection Hm as <-. discriminate.
Qed.

(** X3.  The probe never fails with a 404: it fails only with the
    InvalidInput, PathTraversal or AccessDenied error of the guard, or with
    the rejection of the stat of the path. *)
Theorem probe_never_fails_with_404 dirPath error :
  DirectoryService.getDirectoryMetadata rt fs dirPath = Err error ->
  statusCode error <> Some 404
  /\ ((exists k, k <> NotFound /\ error = guardError k
                 /\ DirectoryService.validatePath rt fs dirPath = Err (guardError k))
      \/ (exists text,
             error = SystemError text
             /\ DirectoryService.validatePath rt fs dirPath = Ok tt
             /\ stat fs (resolve rt dirPath) = inr text)).
Proof.
  unfold DirectoryService.getDirectoryMetadata, DirectoryService.probe.
  destruct (validatePath_cases rt fs dirPath) as [Hv|[k Hv]]; rewrite Hv;
    cbn [bind].
  - destruct (stat fs (resolve rt dirPath)) as [pathStats|text];
      cbn [awaitFs bind statusCode].
    + destruct (Stats.isDirectory pathStats);
        [destruct (readdir fs (resolve rt dirPath))|]; discriminate.
    + intros [= <-]. split; [discriminate|]. right. now exists text.
  - destruct k; cbn; intros [= <-]; (split; [discriminate|]); left.
    + now exists InvalidInput.
    + now exists PathTraversal.
    + now exists AccessDenied.
Qed.

(** X4.  The probe reports a path as absent only when the guard's read
    probe of the normalized path failed, and then every other field has its
    default; as soon as the guard passes and the stat resolves, the probe
    reports the path as existing. *)
Theorem probe_reports_absent_only_on_not_found dirPath metadata :
  DirectoryService.getDirectoryMetadata rt fs dirPath = Ok metadata ->
  if DirectoryMetadata.exists_ metadata
  then DirectoryService.validatePath rt fs dirPath = Ok tt
       /\ exists pathStats,
           stat fs (resolve rt dirPath) = inl pathStats
           /\ DirectoryMetadata.isDirectory metadata = Stats.isDirectory pathStats
  else DirectoryService.validatePath rt fs dirPath = Err (guardError NotFound)
       /\ access fs (normalize rt dirPath) R_OK = false
       /\ metadata = DirectoryService.absentMetadata (resolve rt dirPath).
Proof.
  unfold DirectoryService.getDirectoryMetadata, DirectoryService.probe.
  destruct (DirectoryService.validatePath rt fs dirPath) as [[]|e] eqn:Hv;
    cbn [bind].
  - destruct (stat fs (resolve rt dirPath)) as [pathStats|text];
      cbn [awaitFs bind statusCode]; [|discriminate].
    destruct (Stats.isDirectory pathStats) eqn:Hd;
      [destruct (readdir fs (resolve rt dirPath))|];
      intros [= <-]; cbn; (split; [reflexivity|]); now exists pathStats.
  - destruct (validatePath_cases rt fs dirPath) as [Hv'|[k Hv']];
      [congruence|]. rewrite Hv' in Hv. injection Hv as <-.
    destruct k; cbn; try discriminate.
    intros [= <-]. cbn. split; [reflexivity|]. split; [|reflexivity].
    unfold DirectoryService.validatePath in Hv'.
    destruct (_ || _); [discriminate|].
    destruct (Js.includes _ _); [discriminate|].
    destruct (existsb _ _); [discriminate|].
    now destruct (access fs (normalize rt dirPath) R_OK).
Qed.

End Failures.

Lemma listing_fails_only_for_the_directory_witness :
  DirectoryService.listDirectory Sample.rt Sample.disk 0 "/srv/data/a.txt" 1 100
                                 false ByName Asc
  = Err (createError "Path is not a directory" 400)
  /\ exists pathStats,
      stat Sample.disk (resolve Sample.rt "/srv/data/a.txt") = inl pathStats
      /\ Stats.isDirectory pathStats = false.
Proof.
  split; [reflexivity|].
  destruct (listing_fails_only_for_the_directory Sample.rt Sample.disk 0
              "/srv/data/a.txt" 1 100 false ByName Asc
              (createError "Path is not a directory" 400) eq_refl)
    as [(k & Hk & _)|[(_ & H)|(text & Ht & _)]].
  - destruct k; discriminate.
  - exact H.
  - discriminate.
Defined.

Lemma listing_refuses_what_the_probe_calls_a_file_witness :
  DirectoryService.listDirectory Sample.rt Sample.disk 0 "/srv/data/a.txt" 1 100
                                 false ByName Asc
  = Err (createError "Path is not a directory" 400)
  /\ exists metadata,
      DirectoryService.getDirectoryMetadata Sample.rt Sample.disk "/srv/data/a.txt"
      = Ok metadata
      /\ DirectoryMetadata.exists_ metadata = true
      /\ DirectoryMetadata.isDirectory metadata = false.
Proof.
  split; [reflexivity|].
  apply (listing_refuses_what_the_probe_calls_a_file Sample.rt Sample.disk 0
           "/srv/data/a.txt" 1 100 false ByName Asc).
  reflexivity.
Defined.

Lemma probe_never_fails_with_404_witness :
  DirectoryService.getDirectoryMetadata Sample.rt Sample.disk "/etc/passwd/x"
  = Err (guardError AccessDenied)
  /\ statusCode (guardError AccessDenied) <> Some 404.
Proof.
  split; [reflexivity|].
  apply (probe_never_fails_with_404 Sample.rt Sample.disk "/etc/passwd/x").
  reflexivity.
Defined.

Lemma probe_reports_absent_only_on_not_found_witness :
  DirectoryService.getDirectoryMetadata Sample.rt Sample.disk "/srv/missing"
  = Ok (DirectoryService.absentMetadata "/srv/missing")
  /\ DirectoryService.validatePath Sample.rt Sample.disk "/srv/missing"
     = Err (guardError NotFound)
  /\ access Sample.disk "/srv/missing" R_OK = false.
Proof.
  split; [reflexivity|].
  destruct (probe_reports_absent_only_on_not_found Sample.rt Sample.disk
              "/srv/missing" (DirectoryService.absentMetadata "/srv/missing")
              eq_refl) as (Hv & Ha & _).
  split; [exact Hv | exact Ha].
Defined.

(** ** More list facts *)

Section MoreListFacts.

Context {A : Type}.

Lemma slice_In (l : list A) (first last : Z) (x : A) :
  In x (Js.slice l first last) -> In x l.
Proof.
  unfold Js.slice. intros H.
  set (n := Z.to_nat _) in H. set (k := Z.to_nat _) in H.
  rewrite <- (firstn_skipn k l). apply in_or_app. right.
  rewrite <- (firstn_skipn n (skipn k l)). apply in_or_app. now left.
Qed.

Lemma StronglySorted_app_inv (R : A -> A -> Prop) (l1 l2 : list A) :
  StronglySorted R (l1 ++ l2) -> StronglySorted R l1 /\ StronglySorted R l2.
Proof.
  induction l1 as [|x l1 IH]; simpl; intros H.
  - split; [constructor | exact H].
  - apply StronglySorted_inv in H. destruct H as [H Hx].
    destruct (IH H) as [H1 H2]. split; [|exact H2].
    constructor; [exact H1|].
    rewrite Forall_forall in *. intros y Hy. apply Hx, in_or_app. now left.
Qed.

Lemma slice_sorted (R : A -> A -> Prop) (l : list A) (first last : Z) :
  StronglySorted R l -> StronglySorted R (Js.slice l first last).
Proof.
  unfold Js.slice. intros H.
  set (n := Z.to_nat _). set (k := Z.to_nat _).
  rewrite <- (firstn_skipn k l) in H. apply StronglySorted_app_inv in H.
  destruct H as [_ H].
  rewrite <- (firstn_skipn n (skipn k l)) in H.
  now apply StronglySorted_app_inv in H.
Qed.

Lemma filter_perm (p : A -> bool) (l l' : list A) :
  Permutation l l' -> Permutation (filter p l) (filter p l').
Proof.
  induction 1 as [|x l l' _ IH|x y l|l l' l'' _ IH1 _ IH2]; simpl.
  - constructor.
  - destruct (p x); [now constructor | exact IH].
  - destruct (p x), (p y); try reflexivity. apply perm_swap.
  - now transitivity (filter p l').
Qed.

(** Inserting into a list does not disturb the relative order of the
    elements of a class [tie] whose members compare as equal or before. *)
Lemma filter_insertBy (cmp : A -> A -> Z) (tie : A -> bool) (x : A) (l : list A) :
  (forall a b, tie a = true -> tie b = true -> cmp a b <= 0) ->
  filter tie (Js.insertBy cmp x l) = filter tie (x :: l).
Proof.
  intros Htie. induction l as [|y l IH]; [reflexivity|].
  cbn [Js.insertBy]. destruct (Z.leb_spec (cmp x y) 0) as [Hxy|Hxy];
    [reflexivity|].
  cbn [filter] in *. rewrite IH.
  destruct (tie x) eqn:Hx, (tie y) eqn:Hy; try reflexivity.
  specialize (Htie x y Hx Hy). lia.
Qed.

Lemma filter_sort (cmp : A -> A -> Z) (tie : A -> bool) (l : list A) :
  (forall a b, tie a = true -> tie b = true -> cmp a b <= 0) ->
  filter tie (Js.sort cmp l) = filter tie l.
Proof.
  intros Htie. unfold Js.sort. induction l as [|x l IH]; [reflexivity|].
  cbn [fold_right]. rewrite filter_insertBy by assumption.
  cbn [filter]. now rewrite IH.
Qed.

End MoreListFacts.

(** ** Entries of a listing *)

Lemma lowerChar_idem (c : ascii) : Js.lowerChar (Js.lowerChar c) = Js.lowerChar c.
Proof.
  destruct c as [[] [] [] [] [] [] [] []]; reflexivity.
Qed.

Lemma toLowerCase_idem (s : string) : Js.toLowerCase (Js.toLowerCase s) = Js.toLowerCase s.
Proof.
  induction s as [|c s IH]; simpl; [reflexivity|].
  now rewrite lowerChar_idem, IH.
Qed.

Section EntryFacts.

Variable rt : Runtime.
Variable fs : FileSystem.

(** A collected entry is the FileInfo built for one of the names. *)
Lemma collectItems_built dir includeHidden fileNames item :
  In item (DirectoryService.collectItems rt fs dir includeHidden fileNames) ->
  exists fileName,
    In fileName fileNames
    /\ DirectoryService.createFileInfo rt fs (join rt dir fileName) fileName = Ok item
    /\ negb includeHidden && FileInfo.isHidden item = false.
Proof.
  unfold DirectoryService.collectItems. rewrite filterNull_In, in_map_iff.
  intros (fileName & Hres & Hin). exists fileName. split; [exact Hin|].
  unfold DirectoryService.resolveEntry in Hres.
  destruct (DirectoryService.createFileInfo rt fs (join rt dir fileName) fileName)
    as [fileInfo|e]; [|discriminate].
  destruct (negb includeHidden && FileInfo.isHidden fileInfo) eqn:Hh;
    [discriminate|]. injection Hres as <-. auto.
Qed.

(** Asking for hidden files only adds entries. *)
Lemma resolveEntry_hidden dir fileName :
  DirectoryService.resolveEntry rt fs dir false fileName
  = match DirectoryService.resolveEntry rt fs dir true fileName with
    | Some item => if FileInfo.isHidden item then None else Some item
    | None => None
    end.
Proof.
  unfold DirectoryService.resolveEntry.
  destruct (DirectoryService.createFileInfo rt fs (join rt dir fileName) fileName)
    as [fileInfo|e]; reflexivity.
Qed.

Lemma collectItems_hidden dir fileNames :
  DirectoryService.collectItems rt fs dir false fileNames
  = filter (fun item => negb (FileInfo.isHidden item))
           (DirectoryService.collectItems rt fs dir true fileNames).
Proof.
  unfold DirectoryService.collectItems.
  induction fileNames as [|fileName fileNames IH]; [reflexivity|].
  cbn [map Js.filterNull]. rewrite resolveEntry_hidden.
  destruct (DirectoryService.resolveEntry rt fs dir true fileName) as [item|].
  - cbn [Js.filterNull filter].
    destruct (FileInfo.isHidden item); cbn [negb Js.filterNull]; now rewrite IH.
  - exact IH.
Qed.

(** X5.  The listing without hidden files is the listing with hidden files
    minus the hidden entries: before the sort the same entries in the same
    order, after the sort the same entries; and none of its entries is
    hidden. *)
Theorem default_listing_drops_exactly_the_hidden dirPath sortBy sortOrder :
  let visible := fun item => negb (FileInfo.isHidden item) in
  filteredEntries rt fs dirPath false
  = filter visible (filteredEntries rt fs dirPath true)
  /\ Permutation (sortedEntries rt fs dirPath false sortBy sortOrder)
                 (filter visible (sortedEntries rt fs dirPath true sortBy sortOrder))
  /\ Forall (fun item => FileInfo.isHidden item = false)
            (sortedEntries rt fs dirPath false sortBy sortOrder).
Proof.
  intros visible.
  assert (Hf : filteredEntries rt fs dirPath false
               = filter visible (filteredEntries rt fs dirPath true)).
  { unfold filteredEntries.
    destruct (readdir fs (resolve rt dirPath)); [|reflexivity].
    apply collectItems_hidden. }
  split; [exact Hf|]. split.
  - unfold sortedEntries, DirectoryService.sortItems.
    rewrite sort_perm, Hf. apply filter_perm. symmetry. apply sort_perm.
  - apply Forall_forall. intros item Hin.
    unfold sortedEntries, DirectoryService.sortItems in Hin.
    apply sort_In in Hin. rewrite Hf in Hin. apply filter_In in Hin.
    destruct Hin as [_ Hv]. unfold visible in Hv.
    now destruct (FileInfo.isHidden item).
Qed.

(** X6.  Every entry of a returned page was built from a name of the
    directory: its name is one of the names [readdir] gave and its path is
    that name joined to the resolved directory; a directory entry has size
    0 and no extension; an extension is in lower case; the hidden flag is
    the one its name commands, and it is off when hidden files were not
    asked for. *)
Theorem listed_entry_is_well_formed
        now dirPath page limit includeHidden sortBy sortOrder r item :
  DirectoryService.listDirectory rt fs now dirPath page limit
                                 includeHidden sortBy sortOrder = Ok r ->
  In item (DirectoryListingResponse.items r) ->
  (exists fileNames,
      readdir fs (resolve rt dirPath) = inl fileNames
      /\ In (FileInfo.name item) fileNames)
  /\ FileInfo.path item = join rt (resolve rt dirPath) (FileInfo.name item)
  /\ (FileInfo.type item = directory ->
      FileInfo.size item = 0 /\ FileInfo.extension item = "")
  /\ Js.toLowerCase (FileInfo.extension item) = FileInfo.extension item
  /\ FileInfo.isHidden item = hiddenName rt (FileInfo.name item)
  /\ (includeHidden = false -> FileInfo.isHidden item = false).
Proof.
  intros Hlist Hin. apply listDirectory_Ok_inv in Hlist.
  destruct Hlist as (_ & (pathStats & fileNames & _ & _ & Hr) & ->).
  cbn [DirectoryService.buildResponse DirectoryListingResponse.items] in Hin.
  apply slice_In in Hin.
  unfold sortedEntries, DirectoryService.sortItems in Hin. apply sort_In in Hin.
  unfold filteredEntries in Hin. rewrite Hr in Hin.
  apply collectItems_built in Hin. destruct Hin as (fileName & Hname & Hbuilt & Hh).
  unfold DirectoryService.createFileInfo in Hbuilt.
  destruct (stat fs (join rt (resolve rt dirPath) fileName)) as [stats|text];
    [|discriminate]. cbn [awaitFs bind] in Hbuilt. injection Hbuilt as <-.
  cbn [FileInfo.name FileInfo.path FileInfo.type FileInfo.size FileInfo.extension
       FileInfo.isHidden] in *.
  split; [now exists fileNames|]. split; [reflexivity|]. split.
  { destruct (Stats.isDirectory stats); [auto | discriminate]. }
  split.
  { destruct (Stats.isDirectory stats); [reflexivity | apply toLowerCase_idem]. }
  split; [reflexivity|].
  intros ->. exact Hh.
Qed.

End EntryFacts.

Lemma listed_entry_is_well_formed_witness :
  exists r item,
    DirectoryService.listDirectory Sample.rt Sample.disk 0 "/srv/data" 1 10
                                   false BySize Asc = Ok r
    /\ In item (DirectoryListingResponse.items r)
    /\ FileInfo.name item = "docs"
    /\ FileInfo.path item = "/srv/data/docs"
    /\ FileInfo.size item = 0
    /\ FileInfo.extension item = ""
    /\ FileInfo.isHidden item = false.
Proof.
  eexists. eexists. split; [reflexivity|]. split; [left; reflexivity|].
  split; [reflexivity|].
  destruct (listed_entry_is_well_formed Sample.rt Sample.disk 0 "/srv/data" 1 10
              false BySize Asc _ _ eq_refl (or_introl eq_refl))
    as (_ & Hpath & Hdir & _ & _ & Hhidden).
  split; [exact Hpath|].
  destruct (Hdir eq_refl) as [Hsize Hext].
  split; [exact Hsize|]. split; [exact Hext | exact (Hhidden eq_refl)].
Defined.

(** ** Pages and order *)

Section PageFacts.

Variable rt : Runtime.
Variable fs : FileSystem.

(** X7.  For a valid directory, a page of at least 1 and a page size of
    at least 1, the page holds [min(limit, total - (page-1)*limit)] entries,
    never fewer than 0: every page before the last one is full, the last
    one is not empty, and a page after the last one is empty. *)
Theorem every_page_but_the_last_is_full
        now dirPath page limit includeHidden sortBy sortOrder :
  validDirectory rt fs dirPath ->
  1 <= page -> 1 <= limit ->
  let total :=
    Z.of_nat (List.length (sortedEntries rt fs dirPath includeHidden sortBy sortOrder)) in
  exists r totalPages,
    DirectoryService.listDirectory rt fs now dirPath page limit
                                   includeHidden sortBy sortOrder = Ok r
    /\ Pagination.totalPages (DirectoryListingResponse.pagination r)
       = Js.Num totalPages
    /\ Z.of_nat (List.length (DirectoryListingResponse.items r))
       = Z.min limit (Z.max 0 (total - (page - 1) * limit))
    /\ (page < totalPages ->
        Z.of_nat (List.length (DirectoryListingResponse.items r)) = limit)
    /\ (page = totalPages ->
        1 <= Z.of_nat (List.length (DirectoryListingResponse.items r)) <= limit)
    /\ (totalPages < page -> DirectoryListingResponse.items r = []).
Proof.
  intros Hvalid Hp Hl total.
  destruct (ceilDiv_pages total limit) as (tp & Hceil & Htp0 & Htp);
    [subst total; lia | exact Hl |].
  eexists. exists tp.
  split; [now apply validDirectory_returns|].
  rewrite page_items by assumption.
  cbn [DirectoryService.buildResponse DirectoryListingResponse.pagination
       Pagination.totalPages].
  fold total. split; [exact Hceil|].
  set (all := sortedEntries rt fs dirPath includeHidden sortBy sortOrder) in *.
  assert (Hlen : Z.of_nat (List.length
                             (firstn (Z.to_nat limit)
                                     (skipn (Z.to_nat ((page - 1) * limit)) all)))
                 = Z.min limit (Z.max 0 (total - (page - 1) * limit))).
  { rewrite length_firstn, length_skipn. subst total. nia. }
  split; [exact Hlen|]. rewrite Hlen.
  split; [nia|]. split; [nia|].
  intros Hafter. apply length_zero_iff_nil. nia.
Qed.

(** X8.  A page sorted by size is in order of size, and a page sorted by
    modification time is in order of the instant its [modifiedDate] reads
    as: non-decreasing for [asc], non-increasing for [desc]. *)
Theorem page_is_in_order_of_its_numeric_key
        now dirPath page limit includeHidden sortBy sortOrder r :
  sortBy = BySize \/ sortBy = ByModified ->
  DirectoryService.listDirectory rt fs now dirPath page limit
                                 includeHidden sortBy sortOrder = Ok r ->
  let key := fun item =>
               match sortBy with
               | ByModified => getTime rt (FileInfo.modifiedDate item)
               | _ => FileInfo.size item
               end in
  StronglySorted
    (fun a b => match sortOrder with
                | Asc => key a <= key b
                | Desc => key b <= key a
                end)
    (DirectoryListingResponse.items r).
Proof.
  intros Hkey Hlist key. apply listDirectory_Ok_inv in Hlist.
  destruct Hlist as (_ & _ & ->).
  cbn [DirectoryService.buildResponse DirectoryListingResponse.items].
  apply slice_sorted. unfold sortedEntries, DirectoryService.sortItems.
  eapply StronglySorted_impl_cmp; [|apply sort_sorted].
  - intros a b. unfold DirectoryService.compareItems, key.
    destruct Hkey as [-> | ->], sortOrder; lia.
  - intros a b. unfold DirectoryService.compareItems.
    destruct Hkey as [-> | ->], sortOrder; lia.
  - intros a b c. unfold DirectoryService.compareItems.
    destruct Hkey as [-> | ->], sortOrder; lia.
Qed.

(** X9.  The sort is stable: the entries of any class whose members the
    comparator ranks as ties come out in the order [readdir] gave them, in
    ascending as in descending order. *)
Theorem ties_keep_the_order_of_readdir
        dirPath includeHidden sortBy sortOrder (tie : FileInfo.t -> bool) :
  (forall a b, tie a = true -> tie b = true ->
               DirectoryService.compareItems rt sortBy sortOrder a b <= 0) ->
  filter tie (sortedEntries rt fs dirPath includeHidden sortBy sortOrder)
  = filter tie (filteredEntries rt fs dirPath includeHidden).
Proof.
  intros Htie. unfold sortedEntries, DirectoryService.sortItems.
  now apply filter_sort.
Qed.

End PageFacts.

Lemma every_page_but_the_last_is_full_witness :
  validDirectory Sample.rt Sample.disk "/srv/abc"
  /\ exists r,
      DirectoryService.listDirectory Sample.rt Sample.disk 0 "/srv/abc" 1 2
                                     false ByName Asc = Ok r
      /\ Z.of_nat (List.length (DirectoryListingResponse.items r)) = 2.
Proof.
  split; [exact sample_abc_valid|].
  destruct (every_page_but_the_last_is_full Sample.rt Sample.disk 0 "/srv/abc" 1 2
              false ByName Asc sample_abc_valid ltac:(lia) ltac:(lia))
    as (r & tp & Hr & Htp & _ & Hfull & _).
  exists r. split; [exact Hr|]. apply Hfull.
  assert (E := Hr). vm_compute in E. injection E as <-.
  vm_compute in Htp. injection Htp as <-. reflexivity.
Defined.

Lemma page_is_in_order_of_its_numeric_key_witness :
  exists r,
    DirectoryService.listDirectory Sample.rt Sample.disk 0 "/srv/data" 1 10
                                   true BySize Desc = Ok r
    /\ map FileInfo.size (DirectoryListingResponse.items r) = [10; 7; 5; 1; 0]
    /\ StronglySorted (fun a b => FileInfo.size b <= FileInfo.size a)
                      (DirectoryListingResponse.items r).
Proof.
  eexists. split; [reflexivity|]. split; [reflexivity|].
  exact (page_is_in_order_of_its_numeric_key Sample.rt Sample.disk 0 "/srv/data"
           1 10 true BySize Desc _ (or_introl eq_refl) eq_refl).
Defined.

Lemma ties_keep_the_order_of_readdir_witness :
  map FileInfo.name
      (sortedEntries Sample.rt Sample.disk "/srv/data" false ByType Desc)
  = ["b.txt"; "a.txt"; "locked.bin"; "docs"]
  /\ map FileInfo.name
         (filter (fun item => isFileType (FileInfo.type item))
                 (sortedEntries Sample.rt Sample.disk "/srv/data" false ByType Desc))
     = map FileInfo.name
           (filter (fun item => isFileType (FileInfo.type item))
                   (filteredEntries Sample.rt Sample.disk "/srv/data" false)).
Proof.
  split; [reflexivity|]. apply (f_equal (map FileInfo.name)).
  apply (ties_keep_the_order_of_readdir Sample.rt Sample.disk "/srv/data" false
           ByType Desc (fun item => isFileType (FileInfo.type item))).
  intros a b Ha Hb. cbn.
  destruct (FileInfo.type a), (FileInfo.type b); discriminate.
Defined.

(** ** Ascending and descending order *)

Section Reversal.

Context {A : Type}.

Lemma StronglySorted_app (R : A -> A -> Prop) (l1 l2 : list A) :
  StronglySorted R l1 -> StronglySorted R l2 ->
  (forall a b, In a l1 -> In b l2 -> R a b) ->
  StronglySorted R (l1 ++ l2).
Proof.
  intros H1 H2 H12. induction H1 as [|x l1 H1 IH Hx]; simpl; [exact H2|].
  constructor.
  - apply IH. intros a b Ha Hb. apply H12; [now right | exact Hb].
  - rewrite Forall_forall in *. intros y Hy. apply in_app_or in Hy.
    destruct Hy as [Hy|Hy]; [now apply Hx | apply H12; [now left | exact Hy]].
Qed.

Lemma StronglySorted_rev (R : A -> A -> Prop) (l : list A) :
  StronglySorted R l -> StronglySorted (fun a b => R b a) (rev l).
Proof.
  induction 1 as [|x l _ IH Hx]; simpl; [constructor|].
  apply StronglySorted_app; [exact IH | repeat constructor |].
  intros a b Ha [<-|[]]. rewrite Forall_forall in Hx.
  apply Hx. now apply in_rev.
Qed.

(** Two orderings of the same elements by a relation that never holds both
    ways are the same list. *)
Lemma sorted_perm_unique (R : A -> A -> Prop) :
  (forall a b, R a b -> R b a -> False) ->
  forall l1 l2,
    StronglySorted R l1 -> StronglySorted R l2 -> Permutation l1 l2 -> l1 = l2.
Proof.
  intros Hasym l1. induction l1 as [|x l1 IH]; intros l2 H1 H2 Hperm.
  - apply Permutation_nil in Hperm. now subst.
  - destruct l2 as [|y l2].
    { symmetry in Hperm. now apply Permutation_nil in Hperm. }
    apply StronglySorted_inv in H1. destruct H1 as [H1 Hx].
    apply StronglySorted_inv in H2. destruct H2 as [H2 Hy].
    rewrite Forall_forall in Hx, Hy.
    assert (Hxy : x = y).
    { assert (Hx2 : In x (y :: l2))
        by (apply (Permutation_in _ Hperm); now left).
      assert (Hy1 : In y (x :: l1))
        by (apply (Permutation_in _ (Permutation_sym Hperm)); now left).
      destruct Hx2 as [Hx2|Hx2]; [now symmetry|].
      destruct Hy1 as [Hy1|Hy1]; [assumption|].
      exfalso. apply (Hasym x y); [now apply Hx | now apply Hy]. }
    subst y. f_equal. apply IH; trivial.
    now apply Permutation_cons_inv in Hperm.
Qed.

Lemma sorted_strict (key : A -> Z) (Rle Rlt : A -> A -> Prop) (l : list A) :
  (forall a b, Rle a b -> key a <> key b -> Rlt a b) ->
  NoDup (map key l) ->
  StronglySorted Rle l ->
  StronglySorted Rlt l.
Proof.
  intros Hstrict Hnd H. induction H as [|x l _ IH Hx]; [constructor|].
  simpl in Hnd. apply NoDup_cons_iff in Hnd. destruct Hnd as [Hnin Hnd].
  constructor; [now apply IH|].
  rewrite Forall_forall in *. intros y Hy.
  apply Hstrict; [now apply Hx|].
  intros E. apply Hnin. rewrite E. now apply in_map.
Qed.

(** With pairwise distinct keys, sorting by the negated comparison gives
    the reverse of sorting by the comparison. *)
Lemma sort_negated_is_reverse (key : A -> Z) (l : list A) :
  NoDup (map key l) ->
  Js.sort (fun a b => - (key a - key b)) l
  = rev (Js.sort (fun a b => key a - key b) l).
Proof.
  intros Hnd.
  assert (Hnd' : forall cmp, NoDup (map key (Js.sort cmp l))).
  { intros cmp. apply (Permutation_NoDup (l := map key l)); [|exact Hnd].
    apply Permutation_map. symmetry. apply sort_perm. }
  apply (sorted_perm_unique (fun a b => key b < key a)).
  - intros a b. lia.
  - apply (sorted_strict key (fun a b => - (key a - key b) <= 0));
      [intros a b; lia | apply Hnd' |].
    apply sort_sorted; intros; lia.
  - apply (StronglySorted_rev (fun a b => key a < key b)).
    apply (sorted_strict key (fun a b => key a - key b <= 0));
      [intros a b; lia | apply Hnd' |].
    apply sort_sorted; intros; lia.
  - rewrite sort_perm. rewrite <- Permutation_rev. symmetry. apply sort_perm.
Qed.

End Reversal.

(** X10.  When no two entries of the filtered set have the same size, the
    listing sorted by size in descending order is the exact reverse of the
    listing in ascending order; the same holds for the modification time
    when no two entries read as the same instant. *)
Theorem descending_is_ascending_reversed
        rt fs dirPath includeHidden sortBy :
  sortBy = BySize \/ sortBy = ByModified ->
  let key := fun item =>
               match sortBy with
               | ByModified => getTime rt (FileInfo.modifiedDate item)
               | _ => FileInfo.size item
               end in
  NoDup (map key (filteredEntries rt fs dirPath includeHidden)) ->
  sortedEntries rt fs dirPath includeHidden sortBy Desc
  = rev (sortedEntries rt fs dirPath includeHidden sortBy Asc).
Proof.
  intros Hkey key Hnd. unfold sortedEntries, DirectoryService.sortItems.
  destruct Hkey as [-> | ->]; exact (sort_negated_is_reverse key _ Hnd).
Qed.

Lemma descending_is_ascending_reversed_witness :
  map FileInfo.size (sortedEntries Sample.rt Sample.disk "/srv/data" true BySize Desc)
  = [10; 7; 5; 1; 0]
  /\ map FileInfo.size (sortedEntries Sample.rt Sample.disk "/srv/data" true BySize Asc)
     = [0; 1; 5; 7; 10]
  /\ sortedEntries Sample.rt Sample.disk "/srv/data" true BySize Desc
     = rev (sortedEntries Sample.rt Sample.disk "/srv/data" true BySize Asc).
Proof.
  split; [reflexivity|]. split; [reflexivity|].
  apply (descending_is_ascending_reversed Sample.rt Sample.disk "/srv/data" true
           BySize (or_introl eq_refl)).
  vm_compute. repeat constructor; simpl; intuition discriminate.
Defined.

(** ** The probe and the listing of one directory *)

Section ProbeAndListing.

Variable rt : Runtime.
Variable fs : FileSystem.

(** With hidden files included, every child whose stat resolves gives
    one entry. *)
Lemma collectItems_all_length dir fileNames :
  List.length (DirectoryService.collectItems rt fs dir true fileNames)
  = List.length (resolvable rt fs dir fileNames).
Proof.
  unfold DirectoryService.collectItems, resolvable.
  induction fileNames as [|fileName fileNames IH]; [reflexivity|].
  cbn [map Js.filterNull filter].
  destruct (stat fs (join rt dir fileName)) as [stats|text] eqn:Hs.
  - destruct (resolveEntry_stat_ok rt fs dir true fileName stats Hs)
      as (item & -> & _). cbn. now rewrite IH.
  - now rewrite (resolveEntry_stat_fails rt fs _ _ _ _ Hs).
Qed.

Lemma resolvable_all dir fileNames :
  List.length (resolvable rt fs dir fileNames) = List.length fileNames
  <-> Forall (fun fileName => exists stats, stat fs (join rt dir fileName) = inl stats)
             fileNames.
Proof.
  unfold resolvable. induction fileNames as [|fileName fileNames IH]; simpl.
  - split; [constructor | reflexivity].
  - assert (Hle := filter_length_le
                     (fun fileName =>
                        match stat fs (join rt dir fileName) with
                        | inl _ => true
                        | inr _ => false
                        end) fileNames).
    destruct (stat fs (join rt dir fileName)) as [stats|text] eqn:Hs; simpl.
    + split.
      * intros H. constructor; [now exists stats|]. apply IH. lia.
      * intros H. apply Forall_inv_tail in H. apply IH in H. lia.
    + split; [lia|]. intros H. apply Forall_inv in H.
      destruct H as (stats & H). congruence.
Qed.

(** X11.  For a valid directory the probe counts every name [readdir]
    gives, the listing (hidden files included) counts those whose stat
    resolves: the listing's total never exceeds the probe's [totalItems],
    and the two are equal exactly when every child's stat resolves. *)
Theorem probe_counts_names_listing_counts_entries
        now dirPath page limit sortBy sortOrder :
  validDirectory rt fs dirPath ->
  exists metadata r fileNames,
    DirectoryService.getDirectoryMetadata rt fs dirPath = Ok metadata
    /\ DirectoryService.listDirectory rt fs now dirPath page limit
                                      true sortBy sortOrder = Ok r
    /\ readdir fs (resolve rt dirPath) = inl fileNames
    /\ DirectoryMetadata.totalItems metadata = Z.of_nat (List.length fileNames)
    /\ Pagination.total (DirectoryListingResponse.pagination r)
       = Z.of_nat (List.length (resolvable rt fs (resolve rt dirPath) fileNames))
    /\ Pagination.total (DirectoryListingResponse.pagination r)
       <= DirectoryMetadata.totalItems metadata
    /\ (Pagination.total (DirectoryListingResponse.pagination r)
        = DirectoryMetadata.totalItems metadata
        <-> Forall (fun fileName =>
                      exists stats,
                        stat fs (join rt (resolve rt dirPath) fileName) = inl stats)
                   fileNames).
Proof.
  intros Hvalid. assert (Hvalid' := Hvalid).
  destruct Hvalid' as (Hv & pathStats & fileNames & Hs & Hd & Hr).
  unfold DirectoryService.getDirectoryMetadata, DirectoryService.probe.
  rewrite Hv, Hs. cbn [awaitFs bind]. rewrite Hd, Hr.
  eexists. eexists. exists fileNames.
  split; [reflexivity|].
  split; [now apply validDirectory_returns|].
  split; [reflexivity|].
  cbn [DirectoryMetadata.totalItems DirectoryService.buildResponse
       DirectoryListingResponse.pagination Pagination.total].
  split; [reflexivity|].
  assert (Htotal : List.length (sortedEntries rt fs dirPath true sortBy sortOrder)
                   = List.length (resolvable rt fs (resolve rt dirPath) fileNames)).
  { unfold sortedEntries, DirectoryService.sortItems. rewrite sort_length.
    unfold filteredEntries. rewrite Hr. apply collectItems_all_length. }
  rewrite Htotal. split; [reflexivity|].
  assert (Hle : (List.length (resolvable rt fs (resolve rt dirPath) fileNames)
                 <= List.length fileNames)%nat) by apply filter_length_le.
  split; [lia|].
  rewrite <- resolvable_all. lia.
Qed.

(** The sizes the probe adds up are the sizes of the file entries of the
    listing when every child that is not a directory is a regular file. *)
Lemma itemSizes_fileBytes dir fileNames :
  (forall fileName stats,
      In fileName fileNames ->
      stat fs (join rt dir fileName) = inl stats ->
      Stats.isFile stats = negb (Stats.isDirectory stats)) ->
  Js.sumOf (fun size => size) (map (DirectoryService.itemSize rt fs dir) fileNames)
  = fileBytes (DirectoryService.collectItems rt fs dir true fileNames).
Proof.
  unfold DirectoryService.collectItems.
  induction fileNames as [|fileName fileNames IH]; intros Hregular;
    [reflexivity|].
  cbn [map Js.filterNull]. rewrite sumOf_cons, IH
    by (intros n st Hn; apply Hregular; now right).
  unfold DirectoryService.itemSize, DirectoryService.resolveEntry,
    DirectoryService.createFileInfo.
  destruct (stat fs (join rt dir fileName)) as [stats|text] eqn:Hs;
    cbn [awaitFs bind negb andb Js.filterNull fileBytes FileInfo.type FileInfo.size].
  - rewrite (Hregular fileName stats (or_introl eq_refl) Hs).
    destruct (Stats.isDirectory stats); cbn [negb]; lia.
  - lia.
Qed.

(** X12.  For a valid directory whose children are directories or regular
    files, the [totalSize] of the probe is the [totalSize] of the listing
    with hidden files included. *)
Theorem probe_and_listing_agree_on_total_size
        now dirPath page limit sortBy sortOrder :
  validDirectory rt fs dirPath ->
  (forall fileNames fileName stats,
      readdir fs (resolve rt dirPath) = inl fileNames ->
      In fileName fileNames ->
      stat fs (join rt (resolve rt dirPath) fileName) = inl stats ->
      Stats.isFile stats = negb (Stats.isDirectory stats)) ->
  exists metadata r,
    DirectoryService.getDirectoryMetadata rt fs dirPath = Ok metadata
    /\ DirectoryService.listDirectory rt fs now dirPath page limit
                                      true sortBy sortOrder = Ok r
    /\ DirectoryMetadata.totalSize metadata
       = ListingMetadata.totalSize (DirectoryListingResponse.metadata r).
Proof.
  intros Hvalid Hregular. assert (Hvalid' := Hvalid).
  destruct Hvalid' as (Hv & pathStats & fileNames & Hs & Hd & Hr).
  unfold DirectoryService.getDirectoryMetadata, DirectoryService.probe.
  rewrite Hv, Hs. cbn [awaitFs bind]. rewrite Hd, Hr.
  eexists. eexists.
  split; [reflexivity|].
  split; [now apply validDirectory_returns|].
  cbn [DirectoryMetadata.totalSize DirectoryService.buildResponse
       DirectoryListingResponse.metadata ListingMetadata.totalSize].
  rewrite fileBytes_sumOf, itemSizes_fileBytes
    by (intros n st; now apply Hregular).
  unfold sortedEntries, DirectoryService.sortItems, filteredEntries. rewrite Hr.
  apply fileBytes_perm. symmetry. apply sort_perm.
Qed.

End ProbeAndListing.

Lemma probe_counts_names_listing_counts_entries_witness :
  validDirectory Sample.rt Sample.disk "/srv/data"
  /\ exists metadata r,
      DirectoryService.getDirectoryMetadata Sample.rt Sample.disk "/srv/data"
      = Ok metadata
      /\ DirectoryService.listDirectory Sample.rt Sample.disk 0 "/srv/data" 1 100
                                        true ByName Asc = Ok r
      /\ DirectoryMetadata.totalItems metadata = 6
      /\ Pagination.total (DirectoryListingResponse.pagination r) = 5.
Proof.
  split; [exact sample_data_valid|].
  destruct (probe_counts_names_listing_counts_entries Sample.rt Sample.disk 0
              "/srv/data" 1 100 ByName Asc sample_data_valid)
    as (metadata & r & fileNames & Hm & Hl & Hr & Hitems & Htotal & _).
  exists metadata, r. split; [exact Hm|]. split; [exact Hl|].
  vm_compute in Hr. injection Hr as <-.
  split; [exact Hitems | exact Htotal].
Defined.

Lemma probe_and_listing_agree_on_total_size_witness :
  validDirectory Sample.rt Sample.disk "/srv/data"
  /\ exists metadata r,
      DirectoryService.getDirectoryMetadata Sample.rt Sample.disk "/srv/data"
      = Ok metadata
      /\ DirectoryService.listDirectory Sample.rt Sample.disk 0 "/srv/data" 1 100
                                        true ByName Asc = Ok r
      /\ DirectoryMetadata.totalSize metadata = 23
      /\ ListingMetadata.totalSize (DirectoryListingResponse.metadata r) = 23.
Proof.
  split; [exact sample_data_valid|].
  destruct (probe_and_listing_agree_on_total_size Sample.rt Sample.disk 0
              "/srv/data" 1 100 ByName Asc sample_data_valid)
    as (metadata & r & Hm & Hl & Hsize).
  { intros fileNames fileName stats Hr Hin Hs.
    vm_compute in Hr. injection Hr as <-.
    repeat (destruct Hin as [<-|Hin];
            [vm_compute in Hs; try discriminate; injection Hs as <-; reflexivity|]).
    destruct Hin. }
  exists metadata, r. split; [exact Hm|]. split; [exact Hl|].
  assert (E := Hm). vm_compute in E. injection E as <-.
  split; [reflexivity|]. rewrite <- Hsize. reflexivity.
Defined.

(** ** The deny-list *)

Lemma toLowerCase_append (a b : string) :
  Js.toLowerCase (a ++ b) = (Js.toLowerCase a ++ Js.toLowerCase b)%string.
Proof.
  induction a as [|c a IH]; simpl; [reflexivity | now rewrite IH].
Qed.

(** X13.  A path whose normalized form contains an entry of the deny-list
    anywhere, in any mix of upper and lower case, never passes the guard:
    it fails with AccessDenied, unless the length check or the traversal
    check has already failed.  The probe fails with the same error, so it
    tells neither that such a path exists nor that it does not. *)
Theorem restricted_paths_are_refused_in_any_case
        rt fs raw restricted (before inside after : string) :
  In restricted DirectoryService.RESTRICTED_PATHS ->
  normalize rt raw = (before ++ inside ++ after)%string ->
  Js.toLowerCase inside = Js.toLowerCase restricted ->
  exists k,
    k <> NotFound
    /\ DirectoryService.validatePath rt fs raw = Err (guardError k)
    /\ DirectoryService.getDirectoryMetadata rt fs raw = Err (guardError k)
    /\ ((raw =? "")%string
        || (DirectoryService.MAX_PATH_LENGTH <? Z.of_nat (String.length raw))
        || Js.includes (normalize rt raw) ".." = false ->
        k = AccessDenied).
Proof.
  intros Hin Hnorm Hcase.
  assert (Hdeny : existsb (fun restrictedPath =>
                             Js.includes (Js.toLowerCase (normalize rt raw))
                                         (Js.toLowerCase restrictedPath))
                          DirectoryService.RESTRICTED_PATHS = true).
  { apply existsb_exists. exists restricted. split; [exact Hin|].
    rewrite Hnorm, !toLowerCase_append, Hcase. apply includes_infix. }
  assert (Hv : exists k,
             k <> NotFound
             /\ DirectoryService.validatePath rt fs raw = Err (guardError k)
             /\ ((raw =? "")%string
                 || (DirectoryService.MAX_PATH_LENGTH <? Z.of_nat (String.length raw))
                 || Js.includes (normalize rt raw) ".." = false ->
                 k = AccessDenied)).
  { unfold DirectoryService.validatePath.
    destruct ((raw =? "")%string
              || (DirectoryService.MAX_PATH_LENGTH <? Z.of_nat (String.length raw))).
    - exists InvalidInput. repeat split; discriminate.
    - destruct (Js.includes (normalize rt raw) "..").
      + exists PathTraversal. repeat split; discriminate.
      + rewrite Hdeny. exists AccessDenied. repeat split. discriminate. }
  destruct Hv as (k & Hk & Hv & Hdenied).
  exists k. split; [exact Hk|]. split; [exact Hv|]. split; [|exact Hdenied].
  unfold DirectoryService.getDirectoryMetadata, DirectoryService.probe.
  rewrite Hv. destruct k; try reflexivity. now destruct Hk.
Qed.

Lemma restricted_paths_are_refused_in_any_case_witness :
  normalize Sample.rt "/ETC/Shadow/backup" = ("" ++ "/ETC/Shadow" ++ "/backup")%string
  /\ DirectoryService.validatePath Sample.rt Sample.disk "/ETC/Shadow/backup"
     = Err (guardError AccessDenied)
  /\ DirectoryService.getDirectoryMetadata Sample.rt Sample.disk "/ETC/Shadow/backup"
     = Err (guardError AccessDenied).
Proof.
  split; [reflexivity|].
  destruct (restricted_paths_are_refused_in_any_case Sample.rt Sample.disk
              "/ETC/Shadow/backup" "/etc/shadow" "" "/ETC/Shadow" "/backup"
              (or_introl eq_refl) eq_refl eq_refl)
    as (k & _ & Hv & Hm & Hk).
  rewrite (Hk eq_refl) in Hv, Hm. split; [exact Hv | exact Hm].
Defined.

(* ------------------------------------------------------------------ *)
(** * Further properties of the error handler and of the controller *)

(** ** Replies of the error handler *)

Section ErrorReplies.

Variable nodeEnv : option string.
Variable stackOf : CustomError -> string.
Variable rt : Runtime.
Variable fs : FileSystem.

(** X16.  The reply of the error handler to a failed listing has status
    400, 403, 404 or 500: 404 exactly when the guard's read probe failed,
    403 exactly when the guard found a traversal or a restricted path, and
    500 exactly when the stat or the readdir of the directory rejected. *)
Theorem failed_listing_status
        now dirPath page limit includeHidden sortBy sortOrder error :
  DirectoryService.listDirectory rt fs now dirPath page limit
                                 includeHidden sortBy sortOrder = Err error ->
  let status :=
    ErrorMiddleware.status (ErrorMiddleware.errorHandler nodeEnv stackOf rt now error) in
  In status [400; 403; 404; 500]
  /\ (status = 404
      <-> DirectoryService.validatePath rt fs dirPath = Err (guardError NotFound))
  /\ (status = 403
      <-> DirectoryService.validatePath rt fs dirPath = Err (guardError PathTraversal)
          \/ DirectoryService.validatePath rt fs dirPath = Err (guardError AccessDenied))
  /\ (status = 500 <-> exists text, error = SystemError text).
Proof.
  unfold DirectoryService.listDirectory.
  destruct (validatePath_cases rt fs dirPath) as [Hv|[k Hv]]; rewrite Hv;
    cbn [bind].
  - assert (Hok : forall e,
               (e = createError "Path is not a directory" 400
                \/ exists text, e = SystemError text) ->
               let status :=
                 ErrorMiddleware.status
                   (ErrorMiddleware.errorHandler nodeEnv stackOf rt now e) in
               In status [400; 403; 404; 500]
               /\ (status = 404 <-> Ok tt = Err (guardError NotFound))
               /\ (status = 403 <-> Ok tt = Err (guardError PathTraversal)
                                    \/ Ok tt = Err (guardError AccessDenied))
               /\ (status = 500 <-> exists text, e = SystemError text)).
    { intros e [->|(text & ->)]; cbn.
      - split; [auto|]. split; [split; discriminate|].
        split; [split; [discriminate | intros [H|H]; discriminate]|].
        split; [discriminate | intros (text & H); discriminate].
      - split; [auto 10|]. split; [split; discriminate|].
        split; [split; [discriminate | intros [H|H]; discriminate]|].
        split; [now exists text | reflexivity]. }
    destruct (stat fs (resolve rt dirPath)) as [pathStats|text];
      cbn [awaitFs bind].
    + destruct (negb (Stats.isDirectory pathStats)).
      * intros [= <-]. apply Hok. now left.
      * destruct (readdir fs (resolve rt dirPath)) as [fileNames|text];
          cbn [awaitFs bind]; [discriminate|].
        intros [= <-]. apply Hok. right. now exists text.
    + intros [= <-]. apply Hok. right. now exists text.
  - intros [= <-].
    destruct k; cbn;
      (split; [auto 10|]);
      (split; [split; [try discriminate; reflexivity | try discriminate; reflexivity]|]);
      (split;
       [split; [try discriminate; auto
               | intros [H|H]; try discriminate H; reflexivity]
       | split; [discriminate | intros (text & H); discriminate]]).
Qed.

(** X17.  In production the reply to a failed listing or to a failed
    probe never carries a stack, and its message is one of the texts the
    service itself created or the fixed text of a 500: the text of a
    file-system rejection is not sent. *)
Theorem production_reply_hides_system_errors
        now dirPath page limit includeHidden sortBy sortOrder error :
  nodeEnv = Some "production" ->
  DirectoryService.listDirectory rt fs now dirPath page limit
                                 includeHidden sortBy sortOrder = Err error
  \/ DirectoryService.getDirectoryMetadata rt fs dirPath = Err error ->
  let reply := ErrorMiddleware.errorHandler nodeEnv stackOf rt now error in
  ErrorMiddleware.stack reply = None
  /\ In (ErrorMiddleware.message reply)
        [ "Invalid path length";
          "Path traversal not allowed";
          "Access to this path is restricted";
          "Path does not exist or is not readable";
          "Path is not a directory";
          "Internal server error" ]
  /\ (ErrorMiddleware.status reply = 500
      -> ErrorMiddleware.message reply = "Internal server error").
Proof.
  intros -> Hfail.
  assert (Hkinds : (exists k, error = guardError k)
                   \/ error = createError "Path is not a directory" 400
                   \/ exists text, error = SystemError text).
  { destruct Hfail as [H|H].
    - unfold DirectoryService.listDirectory in H.
      destruct (validatePath_cases rt fs dirPath) as [Hv|[k Hv]];
        rewrite Hv in H; cbn [bind] in H.
      + destruct (stat fs (resolve rt dirPath)) as [pathStats|text];
          cbn [awaitFs bind] in H.
        * destruct (negb (Stats.isDirectory pathStats)).
          -- injection H as <-. auto.
          -- destruct (readdir fs (resolve rt dirPath)) as [fileNames|text];
               cbn [awaitFs bind] in H; [discriminate|].
             injection H as <-. right. right. now exists text.
        * injection H as <-. right. right. now exists text.
      + injection H as <-. left. now exists k.
    - unfold DirectoryService.getDirectoryMetadata, DirectoryService.probe in H.
      destruct (validatePath_cases rt fs dirPath) as [Hv|[k Hv]];
        rewrite Hv in H; cbn [bind] in H.
      + destruct (stat fs (resolve rt dirPath)) as [pathStats|text];
          cbn [awaitFs bind statusCode] in H.
        * destruct (Stats.isDirectory pathStats);
            [destruct (readdir fs (resolve rt dirPath))|]; discriminate.
        * injection H as <-. right. right. now exists text.
      + destruct k; cbn in H; try discriminate; injection H as <-; left.
        * now exists InvalidInput.
        * now exists PathTraversal.
        * now exists AccessDenied. }
  destruct Hkinds as [(k & ->)|[->|(text & ->)]].
  - destruct k; cbn; (split; [reflexivity|]); (split; [auto 10 | discriminate]).
  - cbn. split; [reflexivity|]. split; [auto 10 | discriminate].
  - cbn. split; [reflexivity|]. split; [auto 10 | reflexivity].
Qed.

End ErrorReplies.

Lemma failed_listing_status_witness :
  DirectoryService.listDirectory Sample.rt Sample.disk 0 "/srv/missing" 1 100
                                 false ByName Asc
  = Err (guardError NotFound)
  /\ ErrorMiddleware.status
       (ErrorMiddleware.errorHandler (Some "production") (fun _ => "")
                                     Sample.rt 0 (guardError NotFound))
     = 404.
Proof.
  split; [reflexivity|].
  destruct (failed_listing_status (Some "production") (fun _ => EmptyString)
              Sample.rt Sample.disk 0 "/srv/missing" 1 100 false ByName Asc
              (guardError NotFound) eq_refl) as (_ & H404 & _).
  apply H404. reflexivity.
Defined.

Lemma production_reply_hides_system_errors_witness :
  DirectoryService.listDirectory Sample.rt Sample.disk 0 "/srv/data/a.txt" 1 100
                                 false ByName Asc
  = Err (createError "Path is not a directory" 400)
  /\ ErrorMiddleware.stack
       (ErrorMiddleware.errorHandler (Some "production") (fun _ => "at listDirectory")
          Sample.rt 0 (createError "Path is not a directory" 400))
     = None.
Proof.
  split; [reflexivity|].
  destruct (production_reply_hides_system_errors
              (Some "production") (fun _ => "at listDirectory")
              Sample.rt Sample.disk 0 "/srv/data/a.txt" 1 100 false ByName Asc
              (createError "Path is not a directory" 400) eq_refl
              (or_introl eq_refl)) as (Hstack & _).
  exact Hstack.
Defined.

(* ------------------------------------------------------------------ *)
(** * Properties of the browser side *)

(** ** The page selector of the file list *)

Section PageSelector.

Lemma countUp_In (first last p : Z) :
  In p (Frontend.countUp first last) <-> first <= p <= last.
Proof.
  unfold Frontend.countUp. rewrite in_map_iff. split.
  - intros (k & <- & Hk). apply in_seq in Hk. lia.
  - intros Hp. exists (Z.to_nat (p - first)). split; [lia|].
    apply in_seq. lia.
Qed.

Lemma countUp_length (first last : Z) :
  List.length (Frontend.countUp first last) = Z.to_nat (last - first + 1).
Proof. unfold Frontend.countUp. now rewrite length_map, length_seq. Qed.

(** X18.  The page numbers the file list offers are consecutive, start at
    [max(1, current - 2)], are at most five, all lie within two pages of the
    current page and never exceed the number of pages; the current page is
    among them whenever it is a page of the listing. *)
Theorem page_numbers_are_a_window_around_the_current_page
        (data : DirectoryListingResponse.t) :
  let pagination := DirectoryListingResponse.pagination data in
  let current :=
    if Pagination.page pagination =? 0 then 1 else Pagination.page pagination in
  let pages := Frontend.getPageNumbers (Some data) in
  pages = map (fun k => Z.max 1 (current - 2) + Z.of_nat k)
              (seq 0 (List.length pages))
  /\ (List.length pages <= 5)%nat
  /\ (forall p, In p pages -> 1 <= p /\ current - 2 <= p <= current + 2)
  /\ (forall totalPages,
         Js.ceilDiv (Pagination.total pagination) (Pagination.limit pagination)
         = Js.Num totalPages ->
         (forall p, In p pages -> p <= totalPages)
         /\ (1 <= current <= totalPages -> In current pages)).
Proof.
  intros pagination current pages.
  unfold pages, Frontend.getPageNumbers, Frontend.getTotalPages.
  fold pagination. fold current.
  destruct (Js.ceilDiv (Pagination.total pagination) (Pagination.limit pagination))
    as [tp| | |] eqn:Hceil; cbn [Frontend.loopBound].
  - split; [unfold Frontend.countUp; now rewrite length_map, length_seq|].
    split; [rewrite countUp_length; lia|].
    split; [intros p Hp; apply countUp_In in Hp; lia|].
    intros totalPages [= <-]. split.
    + intros p Hp. apply countUp_In in Hp. lia.
    + intros Hcur. apply countUp_In. lia.
  - split; [unfold Frontend.countUp; now rewrite length_map, length_seq|].
    split; [rewrite countUp_length; lia|].
    split; [intros p Hp; apply countUp_In in Hp; lia|].
    discriminate.
  - split; [reflexivity|]. split; [simpl; lia|].
    split; [intros p []|]. discriminate.
  - split; [reflexivity|]. split; [simpl; lia|].
    split; [intros p []|]. discriminate.
Qed.

End PageSelector.

Lemma page_numbers_are_a_window_around_the_current_page_witness :
  exists r,
    DirectoryService.listDirectory Sample.rt Sample.disk 0 "/srv/abc" 2 1
                                   false ByName Asc = Ok r
    /\ Frontend.getPageNumbers (Some r) = [1; 2; 3]
    /\ In 2 (Frontend.getPageNumbers (Some r)).
Proof.
  eexists. split; [reflexivity|]. split; [reflexivity|].
  match goal with
  | |- In 2 (Frontend.getPageNumbers (Some ?r)) =>
      destruct (page_numbers_are_a_window_around_the_current_page r)
        as (_ & _ & _ & H)
  end.
  destruct (H 3 eq_refl) as [_ Hcurrent]. apply Hcurrent. cbn. lia.
Defined.

(** ** The sort header of the file list *)

(** X19.  A click on the column that is already the sort column flips
    the direction, so that two clicks restore the state; a click on another
    column selects it in ascending order, whatever the direction was; and
    the event emitted always carries the clicked column with the direction
    now in force. *)
Theorem sort_header_toggles (sortBy : string) (currentSort : CurrentSort.t) :
  let '(afterOne, emitted) := Frontend.onSortChange sortBy currentSort in
  CurrentSort.column afterOne = sortBy
  /\ emitted = (sortBy, CurrentSort.direction afterOne)
  /\ (CurrentSort.column currentSort <> sortBy ->
      CurrentSort.direction afterOne = Asc)
  /\ (CurrentSort.column currentSort = sortBy ->
      CurrentSort.direction afterOne <> CurrentSort.direction currentSort
      /\ fst (Frontend.onSortChange sortBy afterOne) = currentSort).
Proof.
  unfold Frontend.onSortChange.
  destruct currentSort as [column direction]. cbn [CurrentSort.column
    CurrentSort.direction].
  destruct (String.eqb_spec column sortBy) as [->|Hne]; cbn.
  - rewrite String.eqb_refl. split; [reflexivity|]. split; [reflexivity|].
    split; [congruence|]. intros _. destruct direction; split;
      (discriminate || reflexivity).
  - split; [reflexivity|]. split; [reflexivity|].
    split; [reflexivity | congruence].
Qed.

Lemma sort_header_toggles_witness :
  fst (Frontend.onSortChange "size" (CurrentSort.mk "size" Asc))
  = CurrentSort.mk "size" Desc
  /\ fst (Frontend.onSortChange "size" (CurrentSort.mk "size" Desc))
     = CurrentSort.mk "size" Asc.
Proof.
  assert (H := sort_header_toggles "size" (CurrentSort.mk "size" Asc)).
  cbn in H. destruct H as (_ & _ & _ & H).
  destruct (H eq_refl) as [_ Hback].
  split; [reflexivity | exact Hback].
Defined.

(** ** Breadcrumbs and the parent path *)

Section Breadcrumbs.

Lemma trail_snoc step (currentPath : string) (parts : list string) (part : string) :
  Frontend.trail step currentPath (parts ++ [part])%list
  = (Frontend.trail step currentPath parts
       ++ [BreadcrumbItem.mk part (step (fold_left step parts currentPath) part)])%list.
Proof.
  revert currentPath. induction parts as [|p parts IH]; intros currentPath.
  - reflexivity.
  - cbn [app Frontend.trail fold_left]. now rewrite IH.
Qed.

Lemma append_assoc (a b c : string) :
  ((a ++ b) ++ c)%string = (a ++ (b ++ c))%string.
Proof.
  induction a as [|x a IH]; simpl; [reflexivity | now rewrite IH].
Qed.

Lemma fold_unixStep (parts : list string) (currentPath : string) :
  parts <> [] ->
  fold_left Frontend.unixStep parts currentPath
  = (currentPath ++ "/" ++ String.concat "/" parts)%string.
Proof.
  revert currentPath. induction parts as [|p parts IH]; intros cur Hne;
    [contradiction|].
  destruct parts as [|q parts].
  - reflexivity.
  - cbn [fold_left] in *. rewrite IH by discriminate.
    unfold Frontend.unixStep. cbn [String.concat].
    now rewrite !append_assoc.
Qed.

Lemma fold_windowsStep (parts : list string) (currentPath : string) :
  parts <> [] ->
  fold_left Frontend.windowsStep parts currentPath
  = (currentPath ++ String.concat "\" parts ++ "\")%string.
Proof.
  revert currentPath. induction parts as [|p parts IH]; intros cur Hne;
    [contradiction|].
  destruct parts as [|q parts].
  - reflexivity.
  - cbn [fold_left] in *. rewrite IH by discriminate.
    unfold Frontend.windowsStep. cbn [String.concat].
    now rewrite !append_assoc.
Qed.

(** The last breadcrumb of a trail, and the one before it. *)
Lemma trail_last step (parts : list string) (part : string) front last :
  Frontend.trail step "" (parts ++ [part])%list = (front ++ [last])%list ->
  Frontend.trail step "" parts = front
  /\ last = BreadcrumbItem.mk part (step (fold_left step parts "") part).
Proof.
  rewrite trail_snoc. intros H. apply app_inj_tail in H.
  destruct H as [H1 H2]. now split.
Qed.

(** X20.  Whenever a path has at least two breadcrumbs and is not a bare
    drive such as [C:], its parent path is the path of the breadcrumb
    before the last one: going up and clicking that breadcrumb lead to the
    same place, for paths with slashes and for paths with backslashes. *)
Theorem parent_path_is_the_previous_breadcrumb
        (path : string) (front : list BreadcrumbItem.t)
        (parent last : BreadcrumbItem.t) :
  Frontend.isDriveRoot path = false ->
  Frontend.getBreadcrumbs path = (front ++ [parent; last])%list ->
  Frontend.getParentPath path = BreadcrumbItem.path parent.
Proof.
  intros Hdrive. unfold Frontend.getBreadcrumbs, Frontend.getParentPath.
  rewrite Hdrive.
  replace ((path =? "/") || (path =? ""))%string
    with ((path =? "") || (path =? "/"))%string by apply orb_comm.
  destruct ((path =? "") || (path =? "/"))%string.
  { intros H. apply (f_equal (@List.length _)) in H.
    rewrite length_app in H. simpl in H. lia. }
  change (front ++ [parent; last])%list with (front ++ [parent] ++ [last])%list.
  rewrite app_assoc.
  intros H.
  assert (Hlen : forall (l : list BreadcrumbItem.t) a,
             List.length (l ++ [a])%list = S (List.length l))
    by (intros; rewrite length_app; simpl; lia).
  destruct (Js.includes path "\").
  - set (parts := Frontend.partsOf Frontend.isBackslash path) in *.
    destruct (exists_last (l := parts)) as (init & part & Hparts).
    { intros E. rewrite E in H. apply (f_equal (@List.length _)) in H.
      rewrite !Hlen in H. discriminate. }
    rewrite Hparts in *. apply trail_last in H. destruct H as [H _].
    destruct (exists_last (l := init)) as (init' & part' & Hinit).
    { intros E. rewrite E in H. apply (f_equal (@List.length _)) in H.
      rewrite Hlen in H. discriminate. }
    rewrite removelast_last, length_app. cbn [List.length].
    destruct (Nat.leb_spec (List.length init + 1) 1) as [Hle|_].
    { rewrite Hinit, length_app in Hle. simpl in Hle. lia. }
    assert (Hne : init <> []) by (rewrite Hinit; now destruct init').
    rewrite Hinit in H. apply trail_last in H. destruct H as [_ ->].
    cbn [BreadcrumbItem.path].
    symmetry. etransitivity; [|apply (fold_windowsStep init "" Hne)].
    now rewrite Hinit, fold_left_app.
  - set (parts := Frontend.partsOf Posix.isSlash path) in *.
    destruct (exists_last (l := parts)) as (init & part & Hparts).
    { intros E. rewrite E in H. apply (f_equal (@List.length _)) in H.
      rewrite !Hlen in H. discriminate. }
    rewrite Hparts in *. rewrite trail_snoc, app_comm_cons in H.
    apply app_inj_tail in H. destruct H as [H _].
    rewrite removelast_last, length_app. cbn [List.length].
    destruct init as [|part0 init0] eqn:Hinit0.
    + cbn in H. apply (app_inj_tail [] front) in H. destruct H as [_ <-].
      reflexivity.
    + rewrite <- Hinit0 in *.
      assert (Hne : init <> []) by (rewrite Hinit0; discriminate).
      destruct (exists_last Hne) as (init' & part' & Hinit).
      destruct (Nat.leb_spec (List.length init + 1) 1) as [Hle|_].
      { rewrite Hinit, length_app in Hle. simpl in Hle. lia. }
      rewrite Hinit, trail_snoc, app_comm_cons in H.
      apply app_inj_tail in H. destruct H as [_ <-].
      cbn [BreadcrumbItem.path].
      symmetry. etransitivity; [|apply (fold_unixStep init "" Hne)].
      now rewrite Hinit, fold_left_app.
Qed.

End Breadcrumbs.

Lemma parent_path_is_the_previous_breadcrumb_witness :
  Frontend.getBreadcrumbs "/home/user/docs"
  = ([BreadcrumbItem.mk "Root" "/"; BreadcrumbItem.mk "home" "/home"]
       ++ [BreadcrumbItem.mk "user" "/home/user";
           BreadcrumbItem.mk "docs" "/home/user/docs"])%list
  /\ Frontend.getParentPath "/home/user/docs" = "/home/user"
  /\ Frontend.getParentPath "C:\Users\me" = "C:\Users\".
Proof.
  split; [reflexivity|]. split.
  - exact (parent_path_is_the_previous_breadcrumb "/home/user/docs"
             [BreadcrumbItem.mk "Root" "/"; BreadcrumbItem.mk "home" "/home"]
             (BreadcrumbItem.mk "user" "/home/user")
             (BreadcrumbItem.mk "docs" "/home/user/docs") eq_refl eq_refl).
  - exact (parent_path_is_the_previous_breadcrumb "C:\Users\me"
             [BreadcrumbItem.mk "C:" "C:\"]
             (BreadcrumbItem.mk "Users" "C:\Users\")
             (BreadcrumbItem.mk "me" "C:\Users\me\") eq_refl eq_refl).
Defined.

(** ** Characters, segments and joins *)

Section SplitJoin.

Lemma includes_char (s : string) (c : ascii) :
  Js.includes s (String c EmptyString) = false
  <-> forall x, In x (list_ascii_of_string s) -> x <> c.
Proof.
  induction s as [|a s IH]; rewrite includes_unfold; unfold Js.startsWith.
  - cbn. split; [intros _ x [] | reflexivity].
  - cbn [String.prefix list_ascii_of_string].
    assert (Hprefix : String.prefix EmptyString s = true) by now destruct s.
    rewrite Hprefix. destruct (ascii_dec c a) as [->|Hne].
    + split; [discriminate|]. intros H. exfalso. apply (H a); [now left | reflexivity].
    + rewrite IH. split.
      * intros H x [<-|Hx]; [congruence | now apply H].
      * intros H x Hx. apply H. now right.
Qed.

Lemma segments_ext (sep1 sep2 : ascii -> bool) (s : string) :
  (forall x, In x (list_ascii_of_string s) -> sep1 x = sep2 x) ->
  Posix.segments sep1 s = Posix.segments sep2 s.
Proof.
  induction s as [|c s IH]; intros H; [reflexivity|].
  cbn [Posix.segments]. rewrite <- (H c) by now left.
  rewrite IH by (intros x Hx; apply H; now right). reflexivity.
Qed.

(** The characters of a segment are characters of the path, and none of
    them is a separator. *)
Lemma segment_chars (sep : ascii -> bool) (s seg : string) (x : ascii) :
  In seg (Posix.segments sep s) ->
  In x (list_ascii_of_string seg) ->
  In x (list_ascii_of_string s) /\ sep x = false.
Proof.
  revert seg. induction s as [|c s IH]; intros seg Hseg Hx.
  - destruct Hseg as [<-|[]]. destruct Hx.
  - cbn [Posix.segments] in Hseg. cbn [list_ascii_of_string].
    destruct (sep c) eqn:Hc.
    + destruct Hseg as [<-|Hseg]; [destruct Hx|].
      destruct (IH seg Hseg Hx). split; [now right | assumption].
    + destruct (Posix.segments sep s) as [|seg0 rest] eqn:E.
      * destruct Hseg as [<-|[]]. destruct Hx as [<-|[]]. split; [now left | exact Hc].
      * destruct Hseg as [<-|Hseg].
        -- destruct Hx as [<-|Hx]; [split; [now left | exact Hc]|].
           destruct (IH seg0 (or_introl eq_refl) Hx). split; [now right | assumption].
        -- destruct (IH seg (or_intror Hseg) Hx). split; [now right | assumption].
Qed.

Lemma segments_free_then_sep (sep : ascii -> bool) (s rest : string) (d : ascii) :
  (forall x, In x (list_ascii_of_string s) -> sep x = false) ->
  sep d = true ->
  Posix.segments sep (s ++ String d rest) = s :: Posix.segments sep rest.
Proof.
  intros Hfree Hd. induction s as [|c s IH].
  - cbn. now rewrite Hd.
  - cbn [append Posix.segments]. rewrite (Hfree c) by now left.
    rewrite IH by (intros x Hx; apply Hfree; now right). reflexivity.
Qed.

Lemma segments_free (sep : ascii -> bool) (s : string) :
  (forall x, In x (list_ascii_of_string s) -> sep x = false) ->
  Posix.segments sep s = [s].
Proof.
  intros Hfree. induction s as [|c s IH]; [reflexivity|].
  cbn [Posix.segments]. rewrite (Hfree c) by now left.
  rewrite IH by (intros x Hx; apply Hfree; now right). reflexivity.
Qed.

Lemma concat_slash_cons (p q : string) (l : list string) :
  String.concat "/" (p :: q :: l)
  = (p ++ String "/" (String.concat "/" (q :: l)))%string.
Proof. reflexivity. Qed.

(** Splitting a join of separator-free parts gives the parts back. *)
Lemma segments_concat (l : list string) :
  l <> [] ->
  (forall part x, In part l -> In x (list_ascii_of_string part) ->
                  Posix.isSlash x = false) ->
  Posix.segments Posix.isSlash (String.concat "/" l) = l.
Proof.
  induction l as [|p l IH]; intros Hne Hfree; [contradiction|].
  destruct l as [|q l].
  - cbn [String.concat]. apply segments_free. intros x. apply Hfree. now left.
  - rewrite concat_slash_cons.
    rewrite segments_free_then_sep; [|intros x; apply Hfree; now left|reflexivity].
    f_equal. apply IH; [discriminate|].
    intros part x Hpart. apply Hfree. now right.
Qed.

Lemma concat_chars (l : list string) (x : ascii) :
  In x (list_ascii_of_string (String.concat "/" l)) ->
  x = "/"%char \/ exists part, In part l /\ In x (list_ascii_of_string part).
Proof.
  assert (Happ : forall a b, In x (list_ascii_of_string (a ++ b)) ->
                             In x (list_ascii_of_string a)
                             \/ In x (list_ascii_of_string b)).
  { intros a b. induction a as [|c a IHa]; cbn; [auto|].
    intros [->|H]; [auto|]. destruct (IHa H); auto. }
  induction l as [|p l IH]; [intros []|].
  destruct l as [|q l].
  - cbn [String.concat]. intros H. right. exists p. split; [now left | exact H].
  - rewrite concat_slash_cons. intros H. apply Happ in H. destruct H as [H|H].
    + right. exists p. split; [now left | exact H].
    + cbn [list_ascii_of_string] in H. destruct H as [<-|H]; [now left|].
      destruct (IH H) as [->|(part & Hpart & Hx)]; [now left|].
      right. exists part. split; [now right | exact Hx].
Qed.

End SplitJoin.

(** ** Going up, and the name of the current directory *)

Section GoingUp.

Lemma filter_all {A : Type} (f : A -> bool) (l : list A) :
  (forall x, In x l -> f x = true) -> filter f l = l.
Proof.
  induction l as [|x l IH]; intros H; [reflexivity|].
  cbn [filter]. rewrite (H x) by now left.
  rewrite IH by (intros y Hy; apply H; now right). reflexivity.
Qed.

Lemma removelast_In {A : Type} (l : list A) (x : A) :
  In x (removelast l) -> In x l.
Proof.
  induction l as [|a l IH]; [intros []|].
  cbn [removelast]. destruct l as [|b l]; [intros []|].
  intros [<-|H]; [now left | right; now apply IH].
Qed.

Lemma isDriveRoot_slash (s : string) : Frontend.isDriveRoot (String "/" s) = false.
Proof. unfold Frontend.isDriveRoot. now destruct s as [|[[] [] [] [] [] [] [] []] s]. Qed.

(** One step up, for a path without backslash that is not a bare drive. *)
Lemma parent_step (path : string) :
  (forall x, In x (list_ascii_of_string path) -> x <> "\"%char) ->
  Frontend.isDriveRoot path = false ->
  let parent := Frontend.getParentPath path in
  Frontend.partsOf Posix.isSlash parent
  = removelast (Frontend.partsOf Posix.isSlash path)
  /\ (forall x, In x (list_ascii_of_string parent) -> x <> "\"%char)
  /\ Frontend.isDriveRoot parent = false
  /\ ((List.length (Frontend.partsOf Posix.isSlash path) <= 1)%nat -> parent = "/").
Proof.
  intros Hchars Hdrive parent. subst parent. unfold Frontend.getParentPath.
  assert (Hroot : Frontend.partsOf Posix.isSlash "/" = []) by reflexivity.
  assert (Hslash : forall x, In x (list_ascii_of_string "/") -> x <> "\"%char)
    by (intros x [<-|[]]; discriminate).
  destruct (String.eqb_spec path "/") as [->|Hne1]; cbn [orb].
  { repeat split; trivial. }
  destruct (String.eqb_spec path "") as [->|Hne2].
  { repeat split; trivial. }
  rewrite Hdrive. rewrite (proj2 (includes_char path "\") Hchars).
  set (parts := Frontend.partsOf Posix.isSlash path).
  destruct (Nat.leb_spec (List.length parts) 1) as [Hshort|Hlong].
  { split; [|repeat split; trivial].
    rewrite Hroot. destruct parts as [|p [|q l]]; trivial. simpl in Hshort. lia. }
  assert (Hparts : forall part, In part (removelast parts) ->
                                In part (Posix.segments Posix.isSlash path)
                                /\ Frontend.nonEmpty part = true).
  { intros part Hpart. apply removelast_In in Hpart.
    unfold parts, Frontend.partsOf in Hpart. now apply filter_In in Hpart. }
  assert (Hrl : removelast parts <> []).
  { destruct parts as [|p [|q l]]; simpl in Hlong; try lia. discriminate. }
  split; [|split; [|split]].
  - unfold Frontend.partsOf at 1.
    change ("/" ++ String.concat "/" (removelast parts))%string
      with (String "/" (String.concat "/" (removelast parts))).
    cbn [Posix.segments]. change (Posix.isSlash "/") with true. cbv iota.
    cbn [filter Frontend.nonEmpty String.eqb negb].
    rewrite segments_concat.
    + apply filter_all. intros part Hpart. now apply Hparts.
    + exact Hrl.
    + intros part x Hpart Hx. destruct (Hparts part Hpart) as [Hseg _].
      now destruct (segment_chars _ _ _ _ Hseg Hx).
  - change ("/" ++ String.concat "/" (removelast parts))%string
      with (String "/" (String.concat "/" (removelast parts))).
    cbn [list_ascii_of_string]. intros x [<-|Hx]; [discriminate|].
    apply concat_chars in Hx. destruct Hx as [->|(part & Hpart & Hx)];
      [discriminate|].
    destruct (Hparts part Hpart) as [Hseg _].
    destruct (segment_chars _ _ _ _ Hseg Hx) as [Hin _]. now apply Hchars.
  - apply isDriveRoot_slash.
  - lia.
Qed.

(** X21.  From a path without backslash that is not a bare drive, going
    up as many times as the path has segments (and at least once) ends at
    the root [/]; any further step stays there. *)
Theorem going_up_reaches_the_root (path : string) (n : nat) :
  Js.includes path "\" = false ->
  Frontend.isDriveRoot path = false ->
  (1 <= n)%nat ->
  (List.length (Frontend.partsOf Posix.isSlash path) <= n)%nat ->
  Nat.iter n Frontend.getParentPath path = "/".
Proof.
  intros Hback. assert (Hback' := proj1 (includes_char path "\"%char) Hback).
  clear Hback. revert path Hback'.
  induction n as [|n IH]; intros path Hback Hdrive Hn Hlen; [lia|].
  destruct (parent_step path Hback Hdrive) as (Hparts & Hback' & Hdrive' & Hshort).
  rewrite Nat.iter_succ_r.
  destruct n as [|n].
  - cbn. now apply Hshort.
  - apply IH; trivial; [lia|].
    rewrite Hparts.
    destruct (Frontend.partsOf Posix.isSlash path) as [|p l]; [simpl; lia|].
    assert (H := @removelast_app _ [] (p :: l)).
    destruct (exists_last (l := p :: l)) as (init & a & E); [discriminate|].
    rewrite E, removelast_last. rewrite E, length_app in Hlen. simpl in Hlen. lia.
Qed.

(** X22.  For a path that is not empty and has no backslash, the name
    shown for the current directory is the name of the last breadcrumb. *)
Theorem directory_name_is_the_last_breadcrumb (path : string) :
  path <> EmptyString ->
  Js.includes path "\" = false ->
  BreadcrumbItem.name
    (List.last (Frontend.getBreadcrumbs path) (BreadcrumbItem.mk "" ""))
  = Frontend.getDirectoryName path.
Proof.
  intros Hne Hback.
  unfold Frontend.getBreadcrumbs, Frontend.getDirectoryName.
  destruct (String.eqb_spec path "") as [|_]; [contradiction|]. cbn [orb].
  assert (Hparts : Frontend.partsOf Frontend.isSlashOrBackslash path
                   = Frontend.partsOf Posix.isSlash path).
  { unfold Frontend.partsOf. f_equal. apply segments_ext.
    intros x Hx. unfold Frontend.isSlashOrBackslash, Frontend.isBackslash.
    assert (Hx' := proj1 (includes_char path "\"%char) Hback x Hx).
    apply Ascii.eqb_neq in Hx'. rewrite Hx'. apply orb_false_r. }
  rewrite Hparts.
  destruct (String.eqb_spec path "/") as [->|_]; [reflexivity|].
  rewrite Hback.
  set (parts := Frontend.partsOf Posix.isSlash path).
  assert (Hnonempty : forall part, In part parts -> part <> EmptyString).
  { intros part Hpart. unfold parts, Frontend.partsOf in Hpart.
    apply filter_In in Hpart. destruct Hpart as [_ Hp].
    unfold Frontend.nonEmpty in Hp. intros ->. discriminate. }
  destruct parts as [|p l] eqn:E; [reflexivity|].
  destruct (exists_last (l := p :: l)) as (init & a & Ea); [discriminate|].
  rewrite Ea in *. rewrite trail_snoc, app_comm_cons, !last_last.
  cbn [BreadcrumbItem.name].
  destruct (String.eqb_spec a ""); [|reflexivity].
  exfalso. apply (Hnonempty a); [apply in_or_app; right; now left | assumption].
Qed.

End GoingUp.

Lemma going_up_reaches_the_root_witness :
  Frontend.getParentPath "/home/user/docs" = "/home/user"
  /\ Nat.iter 3 Frontend.getParentPath "/home/user/docs" = "/"
  /\ Nat.iter 7 Frontend.getParentPath "/home/user/docs" = "/".
Proof.
  split; [reflexivity|]. split.
  - apply (going_up_reaches_the_root "/home/user/docs" 3);
      try reflexivity; cbn; lia.
  - apply (going_up_reaches_the_root "/home/user/docs" 7);
      try reflexivity; cbn; lia.
Defined.

Lemma directory_name_is_the_last_breadcrumb_witness :
  Frontend.getDirectoryName "/home/user/docs" = "docs"
  /\ BreadcrumbItem.name
       (List.last (Frontend.getBreadcrumbs "/home/user/docs")
                  (BreadcrumbItem.mk "" ""))
     = "docs".
Proof.
  split; [reflexivity|].
  rewrite (directory_name_is_the_last_breadcrumb "/home/user/docs");
    [reflexivity | discriminate | reflexivity].
Defined.

(* ------------------------------------------------------------------ *)
(** * Owner, and the two endpoints on an absent path *)

(** X23.  On a platform other than Windows whose [os.userInfo()] gives a
    user name, the owner shown for a listed entry is that name, the user
    the service runs as, whatever the uid of the file is; the group is the
    decimal gid of the file and the mode its octal mode.  Owner and group
    are [unknown] only when the stat carries no uid or no gid. *)
Theorem owner_is_the_user_of_the_service
        rt fs now dirPath page limit includeHidden sortBy sortOrder r item
        (username : string) :
  isWindows rt = false ->
  userInfo rt = Some username ->
  username <> EmptyString ->
  DirectoryService.listDirectory rt fs now dirPath page limit
                                 includeHidden sortBy sortOrder = Ok r ->
  In item (DirectoryListingResponse.items r) ->
  exists stats,
    stat fs (FileInfo.path item) = inl stats
    /\ Permissions.mode (FileInfo.permissions item)
       = Js.toStringRadix (Stats.mode stats) 8
    /\ match Stats.uid stats, Stats.gid stats with
       | Some _, Some gid =>
           Permissions.owner (FileInfo.permissions item) = username
           /\ Permissions.group (FileInfo.permissions item) = Js.toStringRadix gid 10
       | _, _ =>
           Permissions.owner (FileInfo.permissions item) = "unknown"
           /\ Permissions.group (FileInfo.permissions item) = "unknown"
       end.
Proof.
  intros Hwin Huser Hname Hlist Hin. apply listDirectory_Ok_inv in Hlist.
  destruct Hlist as (_ & (pathStats & fileNames & _ & _ & Hr) & ->).
  cbn [DirectoryService.buildResponse DirectoryListingResponse.items] in Hin.
  apply slice_In in Hin.
  unfold sortedEntries, DirectoryService.sortItems in Hin. apply sort_In in Hin.
  unfold filteredEntries in Hin. rewrite Hr in Hin.
  apply collectItems_built in Hin. destruct Hin as (fileName & _ & Hbuilt & _).
  unfold DirectoryService.createFileInfo in Hbuilt.
  destruct (stat fs (join rt (resolve rt dirPath) fileName)) as [stats|text] eqn:Hs;
    [|discriminate]. cbn [awaitFs bind] in Hbuilt. injection Hbuilt as <-.
  cbn [FileInfo.path FileInfo.permissions]. exists stats. split; [exact Hs|].
  unfold DirectoryService.getFilePermissions. rewrite Hwin, Huser.
  destruct (String.eqb_spec username ""); [contradiction|].
  destruct (Stats.uid stats), (Stats.gid stats); cbn; auto.
Qed.

Lemma owner_is_the_user_of_the_service_witness :
  exists r item,
    DirectoryService.listDirectory Sample.rt Sample.disk 0 "/srv/abc" 1 1
                                   false ByName Asc = Ok r
    /\ In item (DirectoryListingResponse.items r)
    /\ Permissions.owner (FileInfo.permissions item) = "node"
    /\ Permissions.group (FileInfo.permissions item) = "1000"
    /\ Permissions.mode (FileInfo.permissions item) = "100644".
Proof.
  eexists. eexists. split; [reflexivity|]. split; [left; reflexivity|].
  destruct (owner_is_the_user_of_the_service Sample.rt Sample.disk 0 "/srv/abc"
              1 1 false ByName Asc _ _ "node" eq_refl eq_refl
              ltac:(discriminate) eq_refl (or_introl eq_refl))
    as (stats & Hs & Hmode & Howner).
  vm_compute in Hs. injection Hs as <-.
  destruct Howner as [Howner Hgroup].
  split; [exact Howner|]. split; [exact Hgroup | exact Hmode].
Defined.

(** X24.  For a request whose path passes the validation rules and whose
    read probe fails in the guard, the listing handler hands the 404 error
    to the error handler, while the metadata handler answers with the
    descriptor of an absent path. *)
Theorem absent_path_is_an_error_for_the_listing_only
        rt fs now (q : DirectoryController.Query) (dirPath : string) :
  DirectoryController.validateDirectoryListing q = [] ->
  DirectoryController.path q = Some dirPath ->
  DirectoryService.validatePath rt fs dirPath = Err (guardError NotFound) ->
  DirectoryController.listDirectory rt fs now q
  = DirectoryController.Next (guardError NotFound)
  /\ DirectoryController.getDirectoryMetadata rt fs q
     = DirectoryController.Success
         (DirectoryService.absentMetadata (resolve rt dirPath)).
Proof.
  intros Hrules Hpath Hv. split.
  - unfold DirectoryController.listDirectory. rewrite Hrules.
    cbn [DirectoryController.listingCall DirectoryController.callPath].
    rewrite Hpath. unfold DirectoryService.listDirectory. now rewrite Hv.
  - unfold DirectoryController.getDirectoryMetadata,
      DirectoryController.validateDirectoryMetadata.
    unfold DirectoryController.validateDirectoryListing in Hrules.
    apply app_eq_nil in Hrules. destruct Hrules as [-> _].
    rewrite Hpath.
    unfold DirectoryService.getDirectoryMetadata, DirectoryService.probe.
    now rewrite Hv.
Qed.

Lemma absent_path_is_an_error_for_the_listing_only_witness :
  let q := {| DirectoryController.path := Some "/srv/missing";
              DirectoryController.page := None;
              DirectoryController.limit := None;
              DirectoryController.includeHidden := None;
              DirectoryController.sortBy := None;
              DirectoryController.sortOrder := None |} in
  DirectoryController.listDirectory Sample.rt Sample.disk 0 q
  = DirectoryController.Next (guardError NotFound)
  /\ DirectoryController.getDirectoryMetadata Sample.rt Sample.disk q
     = DirectoryController.Success (DirectoryService.absentMetadata "/srv/missing").
Proof.
  intros q.
  exact (absent_path_is_an_error_for_the_listing_only Sample.rt Sample.disk 0 q
           "/srv/missing" eq_refl eq_refl eq_refl).
Defined.

Lemma default_listing_drops_exactly_the_hidden_witness :
  map FileInfo.name (filteredEntries Sample.rt Sample.disk "/srv/data" true)
  = ["b.txt"; "a.txt"; ".hidden"; "locked.bin"; "docs"]
  /\ map FileInfo.name (filteredEntries Sample.rt Sample.disk "/srv/data" false)
     = ["b.txt"; "a.txt"; "locked.bin"; "docs"]
  /\ filteredEntries Sample.rt Sample.disk "/srv/data" false
     = filter (fun item => negb (FileInfo.isHidden item))
              (filteredEntries Sample.rt Sample.disk "/srv/data" true).
Proof.
  split; [reflexivity|]. split; [reflexivity|].
  exact (proj1 (default_listing_drops_exactly_the_hidden
                  Sample.rt Sample.disk "/srv/data" ByName Asc)).
Defined.
